(** * voice-interaction-app: the recorder hook and the API orchestrator

    A shallow embedding of [src/hooks/useVoiceRecorder.ts], [src/lib/api.ts]
    and of [handleProcessAudio] of the page component, with the properties of
    the specification stated over it.

    Conventions.
    - A JavaScript string is the list of its UTF-16 code units ([jsstring]);
      a literal of the source is written [js "..."].
    - A byte, a code unit and a JavaScript integer are [Z]; the conversions
      [DataView] performs when it stores (ToUint8, ToUint16, ToUint32,
      ToInt16) are written out with [Z.land] and [Z.shiftr].
    - An audio sample is a binary64 [float], as an element read from a
      [Float32Array] is.
    - [console.log], [console.warn] and [console.error] have no effect on any
      value the program computes and are left out. *)

From Stdlib Require Import DecimalString DecimalPos DecimalZ.
From Stdlib Require Import String Ascii Floats ZArith Bool Lia List.
Import ListNotations.

Open Scope Z_scope.

(* ================================================================== *)
(** * Part I: definitions *)
(* ================================================================== *)

(** ** JavaScript values shared by the two source files *)

Module Js.

Definition jsstring : Type := list Z.

(** The code units of an ASCII literal of the source. *)
Definition js (s : string) : jsstring :=
  map (fun c => Z.of_N (N_of_ascii c)) (list_ascii_of_string s).

Fixpoint jsstring_eqb (a b : jsstring) : bool :=
  match a, b with
  | [], [] => true
  | x :: a', y :: b' => (x =? y) && jsstring_eqb a' b'
  | _, _ => false
  end.

(** [!!s] for a string: the empty string is the only falsy one. *)
Definition truthy (s : jsstring) : bool :=
  match s with [] => false | _ :: _ => true end.

(** [a || b] on strings. *)
Definition or_else (a b : jsstring) : jsstring :=
  if truthy a then a else b.

(** ECMAScript's WhiteSpace and LineTerminator code points, the ones
    [String.prototype.trim] strips: TAB, LF, VT, FF, CR, SP, NBSP, the
    Unicode space separators, LS, PS and the byte order mark. *)
Definition isWhiteSpace (c : Z) : bool :=
  ((9 <=? c) && (c <=? 13))
  || (c =? 32) || (c =? 160) || (c =? 5760)
  || ((8192 <=? c) && (c <=? 8202))
  || (c =? 8232) || (c =? 8233) || (c =? 8239) || (c =? 8287)
  || (c =? 12288) || (c =? 65279).

Fixpoint trimStart (s : jsstring) : jsstring :=
  match s with
  | c :: s' => if isWhiteSpace c then trimStart s' else s
  | [] => []
  end.

Definition trimEnd (s : jsstring) : jsstring := rev (trimStart (rev s)).

Definition trim (s : jsstring) : jsstring := trimEnd (trimStart s).

(** [s.substring(a, b)] for non-negative integer arguments: both are clamped
    to the length and swapped when out of order. *)
Definition substring (s : jsstring) (a b : nat) : jsstring :=
  let lo := Nat.min (Nat.min a b) (length s) in
  let hi := Nat.min (Nat.max a b) (length s) in
  firstn (hi - lo) (skipn lo s).

(** A [Blob]: its bytes and its declared media type. *)
Record Blob : Type := mkBlob { blob_bytes : list Z; blob_type : jsstring }.

Definition size (b : Blob) : nat := length (blob_bytes b).

(** [new Blob(parts, { type })]: the parts' bytes, in order. *)
Definition newBlob (parts : list Blob) (type : jsstring) : Blob :=
  mkBlob (flat_map blob_bytes parts) type.

End Js.

Import Js.

(** ** [audioBufferToWav]: the WAV container written through a [DataView] *)

Module Wav.

(** A decoded [AudioBuffer]: [buffer.length] frames, [buffer.sampleRate],
    and one [Float32Array] per channel ([buffer.numberOfChannels] of them).
    The sample rate is taken to be an integer, as the rates browsers decode
    to are. *)
Record AudioBuffer : Type := mkAudioBuffer {
  ab_length : nat;
  ab_sampleRate : Z;
  ab_channels : list (list float)
}.

Definition numberOfChannels (b : AudioBuffer) : Z :=
  Z.of_nat (length (ab_channels b)).

(** [buffer.getChannelData(c)]; it throws (here [None]) when there is no
    channel [c]. *)
Definition getChannelData (b : AudioBuffer) (c : nat) : option (list float) :=
  nth_error (ab_channels b) c.

(** What the platform guarantees of a decoded buffer: at least one channel,
    every channel [buffer.length] frames long. *)
Definition well_formed (b : AudioBuffer) : Prop :=
  ab_channels b <> [] /\
  Forall (fun ch => length ch = ab_length b) (ab_channels b).

(** [Math.min] and [Math.max] on numbers: NaN if either argument is. (The
    order of the two zeros, which they also settle, cannot matter below: one
    argument is always 1 or -1.) *)
Definition Math_min (a b : float) : float :=
  if PrimFloat.is_nan a || PrimFloat.is_nan b then PrimFloat.nan
  else if PrimFloat.ltb b a then b else a.

Definition Math_max (a b : float) : float :=
  if PrimFloat.is_nan a || PrimFloat.is_nan b then PrimFloat.nan
  else if PrimFloat.ltb a b then b else a.

(** The integer part of a number, as the ToIntN conversions take it: NaN,
    the zeros and the infinities give 0, a finite number is truncated
    towards zero. *)
Definition truncate (x : float) : Z :=
  match Prim2SF x with
  | S754_finite s m e =>
      let a := Z.shiftl (Zpos m) e in if s then - a else a
  | _ => 0
  end.

(** The [n] low bytes of [v], least significant first: what a little-endian
    store of an [n]-byte integer writes, for a signed and an unsigned field
    alike (the value is taken modulo [2^(8n)]). *)
Definition le_bytes (n : nat) (v : Z) : list Z :=
  map (fun k => Z.land (Z.shiftr v (8 * Z.of_nat k)) 255) (seq 0 n).

(** The [ArrayBuffer] behind the view, as its list of bytes. *)
Definition DataView : Type := list Z.

(** [new ArrayBuffer(n)]: [n] zero bytes. *)
Definition newArrayBuffer (n : nat) : DataView := repeat 0 n.

(** A store of the bytes [bs] at [off]; a store that does not fit throws a
    RangeError (here [None]). *)
Definition store (view : DataView) (off : nat) (bs : list Z) : option DataView :=
  if (off + length bs <=? length view)%nat
  then Some (firstn off view ++ bs ++ skipn (off + length bs) view)
  else None.

Definition setUint8 (view : DataView) (off : nat) (v : Z) : option DataView :=
  store view off (le_bytes 1 v).

(** The stores below are the source's calls with [littleEndian = true]. *)
Definition setUint16 (view : DataView) (off : nat) (v : Z) : option DataView :=
  store view off (le_bytes 2 v).

Definition setUint32 (view : DataView) (off : nat) (v : Z) : option DataView :=
  store view off (le_bytes 4 v).

Definition setInt16 (view : DataView) (off : nat) (x : float) : option DataView :=
  store view off (le_bytes 2 (truncate x)).

(** The function's two mutable locals: the view's bytes and [offset]. *)
Definition cursor : Type := (DataView * nat)%type.

Definition writer : Type := cursor -> option cursor.

Definition andThen (f g : writer) : writer :=
  fun c => match f c with Some c' => g c' | None => None end.

Notation "f >> g" := (andThen f g) (at level 61, left associativity).

(** The loop of [writeString]: [view.setUint8(offset + i, str.charCodeAt(i))]
    for [i] from [i0] on. *)
Fixpoint writeChars (view : DataView) (offset i0 : nat) (str : jsstring)
  : option DataView :=
  match str with
  | [] => Some view
  | ch :: rest =>
      match setUint8 view (offset + i0) ch with
      | Some view' => writeChars view' offset (S i0) rest
      | None => None
      end
  end.

Definition writeString (str : jsstring) : writer :=
  fun '(view, offset) =>
    match writeChars view offset 0 str with
    | Some view' => Some (view', (offset + length str)%nat)
    | None => None
    end.

(** [view.setUint32(offset, v, true); offset += 4] and its 16-bit sibling. *)
Definition putUint32 (v : Z) : writer :=
  fun '(view, offset) =>
    match setUint32 view offset v with
    | Some view' => Some (view', (offset + 4)%nat)
    | None => None
    end.

Definition putUint16 (v : Z) : writer :=
  fun '(view, offset) =>
    match setUint16 view offset v with
    | Some view' => Some (view', (offset + 2)%nat)
    | None => None
    end.

(** [channelData[i]]: an index past the end reads [undefined], which the
    arithmetic below turns into NaN. *)
Definition sampleAt (channelData : list float) (i : nat) : float :=
  nth i channelData PrimFloat.nan.

(** [Math.max(-1, Math.min(1, channelData[i])) * 0x7FFF]. *)
Definition scaledSample (x : float) : float :=
  PrimFloat.mul (Math_max (-1)%float (Math_min 1%float x)) 32767%float.

(** One turn of the sample loop. *)
Definition putSample (channelData : list float) (i : nat) : writer :=
  fun '(view, offset) =>
    match setInt16 view offset (scaledSample (sampleAt channelData i)) with
    | Some view' => Some (view', (offset + 2)%nat)
    | None => None
    end.

(** [for (let i = i0; i < i0 + n; i++) { ... }]. *)
Fixpoint sampleLoop (channelData : list float) (i0 n : nat) : writer :=
  match n with
  | O => fun c => Some c
  | S n' => putSample channelData i0 >> sampleLoop channelData (S i0) n'
  end.

Definition writeHeader (length : nat) (sampleRate channels : Z) : writer :=
  writeString (js "RIFF") >>
  putUint32 (36 + Z.of_nat length * 2) >>
  writeString (js "WAVE") >>
  writeString (js "fmt ") >>
  putUint32 16 >>
  putUint16 1 >>
  putUint16 channels >>
  putUint32 sampleRate >>
  putUint32 (sampleRate * 2) >>
  putUint16 2 >>
  putUint16 16 >>
  writeString (js "data") >>
  putUint32 (Z.of_nat length * 2).

(** [audioBufferToWav]; [None] when a call in it throws. *)
Definition audioBufferToWav (buffer : AudioBuffer) : option Blob :=
  let length := ab_length buffer in
  let sampleRate := ab_sampleRate buffer in
  let view := newArrayBuffer (44 + length * 2) in
  let channels := numberOfChannels buffer in
  match writeHeader length sampleRate channels (view, 0%nat) with
  | None => None
  | Some c =>
      match getChannelData buffer 0 with
      | None => None
      | Some channelData =>
          match sampleLoop channelData 0 length c with
          | None => None
          | Some (arrayBuffer, _) =>
              Some (newBlob [mkBlob arrayBuffer []] (js "audio/wav"))
          end
      end
  end.

(** Reading the container back: an unsigned little-endian field. *)
Fixpoint le_value (bs : list Z) : Z :=
  match bs with
  | [] => 0
  | b :: rest => b + 256 * le_value rest
  end.

Definition field (bytes : list Z) (off len : nat) : Z :=
  le_value (firstn len (skipn off bytes)).

(** The fields of the canonical 44-byte header, by their fixed offsets. *)
Definition wav_audioFormat (bytes : list Z) : Z := field bytes 20 2.
Definition wav_numChannels (bytes : list Z) : Z := field bytes 22 2.
Definition wav_sampleRate (bytes : list Z) : Z := field bytes 24 4.
Definition wav_byteRate (bytes : list Z) : Z := field bytes 28 4.
Definition wav_blockAlign (bytes : list Z) : Z := field bytes 32 2.
Definition wav_bitsPerSample (bytes : list Z) : Z := field bytes 34 2.
Definition wav_data (bytes : list Z) : list Z := skipn 44 bytes.

(** The two bytes the sample loop stores for one sample. *)
Definition encodeSample (x : float) : list Z :=
  le_bytes 2 (truncate (scaledSample x)).

(** What [setUint8] keeps of a code unit. *)
Definition low_bytes (str : jsstring) : list Z := map (fun ch => Z.land ch 255) str.

(** The header as a list of bytes, field after field. *)
Definition header_bytes (length : nat) (sampleRate channels : Z) : list Z :=
  low_bytes (js "RIFF") ++ le_bytes 4 (36 + Z.of_nat length * 2) ++
  low_bytes (js "WAVE") ++ low_bytes (js "fmt ") ++
  le_bytes 4 16 ++ le_bytes 2 1 ++ le_bytes 2 channels ++
  le_bytes 4 sampleRate ++ le_bytes 4 (sampleRate * 2) ++
  le_bytes 2 2 ++ le_bytes 2 16 ++
  low_bytes (js "data") ++ le_bytes 4 (Z.of_nat length * 2).

(** A writer emits [bs] when, run with its offset at the end of [pre] and
    room for [bs] ahead, it overwrites exactly that room with [bs] and
    leaves the offset behind it. *)
Definition emits (w : writer) (bs : list Z) : Prop :=
  forall pre old post,
    length old = length bs ->
    w (pre ++ old ++ post, length pre) =
    Some ((pre ++ bs) ++ post, length (pre ++ bs)).

(** A stereo buffer of two frames, and the same first channel alone. *)
Definition stereoBuffer : AudioBuffer :=
  mkAudioBuffer 2 16000
    [[0.5%float; (-0.25)%float]; [1%float; (-1)%float]].

Definition monoBuffer : AudioBuffer :=
  mkAudioBuffer 2 16000 [[0.5%float; (-0.25)%float]].

End Wav.

(** ** [src/lib/api.ts]: the orchestrator *)

Module Api.

Import Wav.

(** What a [throw] carries: an [Error] made by the code itself, or an
    [AxiosError] with the fields the handlers read: [response?.status],
    [code] and [response?.data?.error?.message]. *)
Inductive thrown : Type :=
| Error (message : jsstring)
| AxiosError (message : jsstring) (status : option Z) (code : option jsstring)
    (data_error_message : option jsstring).

Definition message_of (e : thrown) : jsstring :=
  match e with
  | Error m => m
  | AxiosError m _ _ _ => m
  end.

(** The three requests the orchestrator issues, with the fields it sets. *)
Inductive request : Type :=
| TranscriptionRequest (file : Blob) (filename model response_format language : jsstring)
    (authorization : jsstring)
| ChatRequest (system_content user_content model : jsstring) (authorization : jsstring)
| SpeechRequest (voiceId text model_id : jsstring) (xi_api_key : jsstring).

Record Usage : Type := mkUsage {
  prompt_tokens : Z; completion_tokens : Z; total_tokens : Z
}.

(** [choices[i]], by its [message.content]. *)
Record Choice : Type := mkChoice { message_content : jsstring }.

(** The [data] of the three responses. A field the service may leave out
    ([text], [choices], [usage], the audio body) is an [option]. *)
Record TranscriptionData : Type := mkTranscriptionData {
  td_text : option jsstring
}.

Record ChatData : Type := mkChatData {
  cd_choices : option (list Choice);
  cd_usage : option Usage
}.

Record GroqResponse : Type := mkGroqResponse {
  text : jsstring;
  transcribedText : option jsstring;
  usage : option Usage
}.

Record ElevenLabsResponse : Type := mkElevenLabsResponse {
  audioUrl : jsstring;
  audioBlob : Blob
}.

(** What the code calls and does not define: the platform's audio decoder
    ([None]: the promise rejects), the three endpoints behind [axios.post]
    (a rejection or the response's [data]), [URL.createObjectURL], the
    [AudioContext] constructor ([Some e]: it throws [e]) and the
    [FileReader] ([false]: the read fails and [onload] never runs). *)
Record Platform : Type := mkPlatform {
  decodeAudioData : list Z -> option AudioBuffer;
  transcriptions : request -> thrown + TranscriptionData;
  chat_completions : request -> thrown + ChatData;
  text_to_speech : request -> thrown + option Blob;
  createObjectURL : Blob -> jsstring;
  newAudioContext : option thrown;
  readAsArrayBuffer : Blob -> bool
}.

(** How a promise ends. *)
Inductive promise (A : Type) : Type :=
| Resolves (a : A)
| Rejects (e : thrown)
| NeverSettles.

Arguments Resolves {A} a.
Arguments Rejects {A} e.
Arguments NeverSettles {A}.

(** An [async] function's run: the requests it issued, in order, and how it
    settled, rejected ([inl]) or resolved ([inr]). *)
Definition io (A : Type) : Type := (list request * (thrown + A))%type.

Definition ret {A : Type} (a : A) : io A := ([], inr a).

Definition throw {A : Type} (e : thrown) : io A := ([], inl e).

Definition bind {A B : Type} (m : io A) (k : A -> io B) : io B :=
  match m with
  | (t, inl e) => (t, inl e)
  | (t, inr a) => let (t', r) := k a in (t ++ t', r)
  end.

(** [try { m } catch (error) { h error }]. *)
Definition try_catch {A : Type} (m : io A) (h : thrown -> io A) : io A :=
  match m with
  | (t, inl e) => let (t', r) := h e in (t ++ t', r)
  | (t, inr a) => (t, inr a)
  end.

(** [await axios.post(...)]: the request goes out, then the call settles. *)
Definition axios_post {A : Type} (endpoint : request -> thrown + A) (req : request)
  : io A := ([req], endpoint req).

Definition requests {A : Type} (m : io A) : list request := fst m.

Definition outcome {A : Type} (m : io A) : thrown + A := snd m.

Notation "x <- m ;; k" := (bind m (fun x => k))
  (at level 100, m at next level, right associativity).

(** The instance's two private fields. *)
Record VoiceInteractionAPI : Type := mkVoiceInteractionAPI {
  groqApiKey : jsstring;
  elevenLabsApiKey : jsstring
}.

Definition setApiKeys (groqKey elevenLabsKey : jsstring) : VoiceInteractionAPI :=
  mkVoiceInteractionAPI groqKey elevenLabsKey.

(** [convertBlobToWav], the body of [reader.onload]: the blob the promise
    is resolved with once the reader has delivered the bytes. The [try]
    covers the decoding and [audioBufferToWav]; the [catch] resolves with
    the blob the function was given. *)
Definition convertBlobToWav (env : Platform) (audioBlob : Blob) : Blob :=
  match decodeAudioData env (blob_bytes audioBlob) with
  | Some audioBuffer =>
      match audioBufferToWav audioBuffer with
      | Some wavBlob => wavBlob
      | None => audioBlob
      end
  | None => audioBlob
  end.

(** The promise [convertBlobToWav] returns. [new AudioContext()] runs in
    the promise's executor, outside the [try]: when it throws, the promise
    rejects. The reader is given no [onerror]: when the read fails,
    [onload] never runs and the promise never settles. *)
Definition convertBlobToWav_promise (env : Platform) (audioBlob : Blob) : promise Blob :=
  match newAudioContext env with
  | Some e => Rejects e
  | None =>
      if readAsArrayBuffer env audioBlob
      then Resolves (convertBlobToWav env audioBlob)
      else NeverSettles
  end.

Definition bearer (key : jsstring) : jsstring := js "Bearer " ++ key.

Definition system_instruction : jsstring :=
  js "You are a helpful AI assistant. Provide clear, concise, and informative responses to user questions. Keep your responses conversational and engaging, but not too long.".

Definition msg_groq_key : jsstring := js "Groq API key is not configured".
Definition msg_no_speech : jsstring :=
  js "No speech was detected in the audio. Please try speaking more clearly.".
Definition msg_no_choices : jsstring := js "No response generated from AI model".
Definition msg_groq_401 : jsstring :=
  js "Invalid Groq API key. Please check your API key and try again.".
Definition msg_groq_429 : jsstring :=
  js "Rate limit exceeded. Please wait a moment and try again.".
Definition msg_groq_400 (errorMessage : jsstring) : jsstring :=
  js "Groq API Error: " ++ errorMessage.
Definition msg_groq_timeout : jsstring :=
  js "Request timeout. Please check your internet connection and try again.".
Definition msg_groq_generic : jsstring :=
  js "Failed to process audio with Groq API. Please try again.".

Definition status_is (status : option Z) (n : Z) : bool :=
  match status with Some s => s =? n | None => false end.

Definition code_is (code : option jsstring) (c : jsstring) : bool :=
  match code with Some s => jsstring_eqb s c | None => false end.

(** [!transcribedText || transcribedText.trim().length === 0]. *)
Definition no_speech (transcribedText : option jsstring) : bool :=
  match transcribedText with
  | None => true
  | Some t => negb (truthy t) || (length (trim t) =? 0)%nat
  end.

(** [!choices || choices.length === 0]. *)
Definition no_choices (choices : option (list Choice)) : bool :=
  match choices with
  | None => true
  | Some l => (length l =? 0)%nat
  end.

(** The [catch] of [transcribeAndProcess]. *)
Definition groq_catch {A : Type} (error : thrown) : io A :=
  match error with
  | AxiosError _ status code data_error_message =>
      if status_is status 401 then throw (Error msg_groq_401)
      else if status_is status 429 then throw (Error msg_groq_429)
      else if status_is status 400 then
        let errorMessage :=
          or_else (match data_error_message with Some m => m | None => [] end)
                  (js "Bad request to Groq API") in
        throw (Error (msg_groq_400 errorMessage))
      else if code_is code (js "ECONNABORTED") then throw (Error msg_groq_timeout)
      else throw (Error msg_groq_generic)
  | Error _ => throw (Error msg_groq_generic)
  end.

(** The bodies of the three requests, as the code fills them in. *)
Definition transcription_request (this : VoiceInteractionAPI) (wavBlob : Blob) : request :=
  TranscriptionRequest wavBlob (js "audio.wav") (js "whisper-large-v3")
    (js "json") (js "en") (bearer (groqApiKey this)).

Definition chat_request (this : VoiceInteractionAPI) (transcribedText : jsstring) : request :=
  ChatRequest system_instruction transcribedText (js "llama3-8b-8192")
    (bearer (groqApiKey this)).

(** [transcribeAndProcess], in the run where the promise of
    [convertBlobToWav] resolves ([transcribeAndProcess_call] below covers
    the others). *)
Definition transcribeAndProcess (env : Platform) (this : VoiceInteractionAPI)
    (audioBlob : Blob) : io GroqResponse :=
  if negb (truthy (groqApiKey this)) then throw (Error msg_groq_key)
  else
    try_catch
      (let wavBlob := convertBlobToWav env audioBlob in
       transcriptionResponse <-
         axios_post (transcriptions env) (transcription_request this wavBlob) ;;
       let transcribedText := td_text transcriptionResponse in
       if no_speech transcribedText then throw (Error msg_no_speech)
       else
         let transcribedText := match transcribedText with Some t => t | None => [] end in
         chatResponse <-
           axios_post (chat_completions env) (chat_request this transcribedText) ;;
         if no_choices (cd_choices chatResponse) then throw (Error msg_no_choices)
         else
           match cd_choices chatResponse with
           | Some (choice :: _) =>
               ret (mkGroqResponse (message_content choice) (Some transcribedText)
                      (cd_usage chatResponse))
           | _ => throw (Error msg_no_choices)
           end)
      groq_catch.

(** A call of [transcribeAndProcess], whatever becomes of the promise of
    [convertBlobToWav]: [transcribeAndProcess] above is the run in which it
    resolves; a rejection is thrown by the [await] inside the [try] and goes
    through the [catch]; and when it never settles neither does the call
    ([None]). *)
Definition transcribeAndProcess_call (env : Platform) (this : VoiceInteractionAPI)
    (audioBlob : Blob) : option (io GroqResponse) :=
  if negb (truthy (groqApiKey this)) then Some (throw (Error msg_groq_key))
  else
    match convertBlobToWav_promise env audioBlob with
    | Resolves _ => Some (transcribeAndProcess env this audioBlob)
    | Rejects e => Some (groq_catch e)
    | NeverSettles => None
    end.

Definition msg_eleven_key : jsstring := js "ElevenLabs API key is not configured".
Definition msg_no_text : jsstring := js "No text provided for speech synthesis".
Definition msg_empty_audio : jsstring := js "Empty audio response received".
Definition msg_eleven_401 : jsstring :=
  js "Invalid ElevenLabs API key. Please check your API key and try again.".
Definition msg_eleven_429 : jsstring :=
  js "ElevenLabs rate limit exceeded. Please wait a moment and try again.".
Definition msg_eleven_422 : jsstring := js "Invalid text input for speech synthesis.".
Definition msg_eleven_timeout : jsstring :=
  js "ElevenLabs request timeout. Please try again.".
Definition msg_eleven_generic : jsstring :=
  js "Failed to convert text to speech. Please try again.".

Definition default_voiceId : jsstring := js "EXAVITQu4vr4xnSDxMaL".

(** The limit of [text.substring(0, 2500)]. *)
Definition max_text_length : nat := 2500.

(** [!text || text.trim().length === 0]. *)
Definition no_text (text : jsstring) : bool :=
  negb (truthy text) || (length (trim text) =? 0)%nat.

(** [!response.data || response.data.size === 0]. *)
Definition no_audio (data : option Blob) : bool :=
  match data with
  | None => true
  | Some b => (size b =? 0)%nat
  end.

(** The [catch] of [convertTextToSpeech]. *)
Definition eleven_catch {A : Type} (error : thrown) : io A :=
  match error with
  | AxiosError _ status code _ =>
      if status_is status 401 then throw (Error msg_eleven_401)
      else if status_is status 429 then throw (Error msg_eleven_429)
      else if status_is status 422 then throw (Error msg_eleven_422)
      else if code_is code (js "ECONNABORTED") then throw (Error msg_eleven_timeout)
      else throw (Error msg_eleven_generic)
  | Error _ => throw (Error msg_eleven_generic)
  end.

Definition speech_request (this : VoiceInteractionAPI) (voiceId text : jsstring) : request :=
  SpeechRequest voiceId (substring text 0 max_text_length)
    (js "eleven_monolingual_v1") (elevenLabsApiKey this).

Definition convertTextToSpeech (env : Platform) (this : VoiceInteractionAPI)
    (text : jsstring) (voiceId : jsstring) : io ElevenLabsResponse :=
  if negb (truthy (elevenLabsApiKey this)) then throw (Error msg_eleven_key)
  else if no_text text then throw (Error msg_no_text)
  else
    try_catch
      (response <-
         axios_post (text_to_speech env) (speech_request this voiceId text) ;;
       if no_audio response then throw (Error msg_empty_audio)
       else
         match response with
         | Some data =>
             let audioBlob := newBlob [data] (js "audio/mpeg") in
             let audioUrl := createObjectURL env audioBlob in
             ret (mkElevenLabsResponse audioUrl audioBlob)
         | None => throw (Error msg_empty_audio)
         end)
      eleven_catch.

(** The page's state that [handleProcessAudio] sets. *)
Record PageState : Type := mkPageState {
  responseText : jsstring;
  pageTranscribedText : jsstring;
  audioResponse : option ElevenLabsResponse;
  error : option jsstring
}.

(** [handleProcessAudio] of the page component, for a recording whose
    format adaptation resolves: stage 1 and 2 through [transcribeAndProcess],
    then stage 3 with the default voice; whatever is thrown ends as the
    page's [error], by its message. The result is the requests issued and
    the page state at the end ([None]: no recording, the handler returned at
    once). *)
Definition handleProcessAudio (env : Platform) (api : VoiceInteractionAPI)
    (audioBlob : option Blob) : list request * option PageState :=
  match audioBlob with
  | None => ([], None)
  | Some audioBlob =>
      match transcribeAndProcess env api audioBlob with
      | (t1, inl e) => (t1, Some (mkPageState [] [] None (Some (message_of e))))
      | (t1, inr groqResponse) =>
          let transcribed :=
            match transcribedText groqResponse with Some t => t | None => [] end in
          match convertTextToSpeech env api (text groqResponse) default_voiceId with
          | (t2, inl e) =>
              (t1 ++ t2,
               Some (mkPageState (text groqResponse) transcribed None
                       (Some (message_of e))))
          | (t2, inr ttsResponse) =>
              (t1 ++ t2,
               Some (mkPageState (text groqResponse) transcribed
                       (Some ttsResponse) None))
          end
      end
  end.

Definition is_chat_request (r : request) : bool :=
  match r with ChatRequest _ _ _ _ => true | _ => false end.

Definition is_speech_request (r : request) : bool :=
  match r with SpeechRequest _ _ _ _ => true | _ => false end.

(** A transcription text is blank when it is missing, empty, or made of
    white space only. *)
Definition blank (transcribedText : option jsstring) : Prop :=
  match transcribedText with
  | None => True
  | Some t => forallb isWhiteSpace t = true
  end.

(** A choices list is missing or empty. *)
Definition missing_choices (choices : option (list Choice)) : Prop :=
  choices = None \/ choices = Some [].

(** A platform for examples: the decoder rejects the empty input and
    decodes anything else to a fixed mono buffer; the endpoints answer with
    the given transcription text, choices and audio body. *)
Definition examplePlatform (heard : option jsstring) (choices : option (list Choice))
    (audio : option Blob) : Platform :=
  mkPlatform
    (fun bytes => match bytes with [] => None | _ :: _ => Some monoBuffer end)
    (fun _ => inr (mkTranscriptionData heard))
    (fun _ => inr (mkChatData choices None))
    (fun _ => inr audio)
    (fun _ => js "blob:response")
    None
    (fun _ => true).

Definition exampleApi : VoiceInteractionAPI := setApiKeys (js "gsk") (js "xi").


Definition someRecording : Blob := mkBlob [26; 69; 223; 163] (js "audio/webm").

Definition longText : jsstring := repeat 97 2501.

End Api.

(** ** [src/hooks/useVoiceRecorder.ts]: the recorder hook *)

Module Recorder.

(** [MediaRecorder.state]. *)
Inductive RecordingState : Type := inactive | recording | paused.

(** The [MediaRecorder] the hook holds: its [state], and the [mimeType]
    variable its [onstop] handler closed over. *)
Record MediaRecorder : Type := mkMediaRecorder {
  state : RecordingState;
  mimeType : jsstring
}.

(** The browser: the hook's [isSupported], and
    [MediaRecorder.isTypeSupported]. *)
Record Browser : Type := mkBrowser {
  isSupported : bool;
  isTypeSupported : jsstring -> bool
}.

(** The hook's React state (first four fields), its refs (next four), and
    the part of the platform its calls act on: the capture streams whose
    tracks are live, the intervals [setInterval] made that [clearInterval]
    has not cleared, and the next fresh handle for either. *)
Record Hook : Type := mkHook {
  isRecording : bool;
  isPaused : bool;
  recordingTime : Z;
  audioBlob : option Blob;
  mediaRecorderRef : option MediaRecorder;
  streamRef : option nat;
  chunksRef : list Blob;
  timerRef : option nat;
  liveStreams : list nat;
  intervals : list nat;
  nextHandle : nat
}.

Definition set_isRecording (v : bool) (s : Hook) : Hook :=
  mkHook v (isPaused s) (recordingTime s) (audioBlob s) (mediaRecorderRef s)
    (streamRef s) (chunksRef s) (timerRef s) (liveStreams s) (intervals s)
    (nextHandle s).

Definition set_isPaused (v : bool) (s : Hook) : Hook :=
  mkHook (isRecording s) v (recordingTime s) (audioBlob s) (mediaRecorderRef
    s) (streamRef s) (chunksRef s) (timerRef s) (liveStreams s) (intervals s)
    (nextHandle s).

Definition set_recordingTime (v : Z) (s : Hook) : Hook :=
  mkHook (isRecording s) (isPaused s) v (audioBlob s) (mediaRecorderRef s)
    (streamRef s) (chunksRef s) (timerRef s) (liveStreams s) (intervals s)
    (nextHandle s).

Definition set_audioBlob (v : option Blob) (s : Hook) : Hook :=
  mkHook (isRecording s) (isPaused s) (recordingTime s) v (mediaRecorderRef s)
    (streamRef s) (chunksRef s) (timerRef s) (liveStreams s) (intervals s)
    (nextHandle s).

Definition set_mediaRecorderRef (v : option MediaRecorder) (s : Hook) : Hook :=
  mkHook (isRecording s) (isPaused s) (recordingTime s) (audioBlob s) v
    (streamRef s) (chunksRef s) (timerRef s) (liveStreams s) (intervals s)
    (nextHandle s).

Definition set_streamRef (v : option nat) (s : Hook) : Hook :=
  mkHook (isRecording s) (isPaused s) (recordingTime s) (audioBlob s)
    (mediaRecorderRef s) v (chunksRef s) (timerRef s) (liveStreams s)
    (intervals s) (nextHandle s).

Definition set_chunksRef (v : list Blob) (s : Hook) : Hook :=
  mkHook (isRecording s) (isPaused s) (recordingTime s) (audioBlob s)
    (mediaRecorderRef s) (streamRef s) v (timerRef s) (liveStreams s)
    (intervals s) (nextHandle s).

Definition set_timerRef (v : option nat) (s : Hook) : Hook :=
  mkHook (isRecording s) (isPaused s) (recordingTime s) (audioBlob s)
    (mediaRecorderRef s) (streamRef s) (chunksRef s) v (liveStreams s)
    (intervals s) (nextHandle s).

Definition set_liveStreams (v : list nat) (s : Hook) : Hook :=
  mkHook (isRecording s) (isPaused s) (recordingTime s) (audioBlob s)
    (mediaRecorderRef s) (streamRef s) (chunksRef s) (timerRef s) v (intervals
    s) (nextHandle s).

Definition set_intervals (v : list nat) (s : Hook) : Hook :=
  mkHook (isRecording s) (isPaused s) (recordingTime s) (audioBlob s)
    (mediaRecorderRef s) (streamRef s) (chunksRef s) (timerRef s) (liveStreams
    s) v (nextHandle s).

Definition set_nextHandle (v : nat) (s : Hook) : Hook :=
  mkHook (isRecording s) (isPaused s) (recordingTime s) (audioBlob s)
    (mediaRecorderRef s) (streamRef s) (chunksRef s) (timerRef s) (liveStreams
    s) (intervals s) v.

Definition initial : Hook :=
  mkHook false false 0 None None None [] None [] [] 0.

Definition remove_handle (h : nat) (l : list nat) : list nat :=
  filter (fun x => negb (Nat.eqb x h)) l.

(** [timerRef.current = setInterval(() => setRecordingTime(prev => prev + 1), 1000)]:
    the interval the ref held before, if any, is not cleared. *)
Definition startTimer (s : Hook) : Hook :=
  let id := nextHandle s in
  set_timerRef (Some id)
    (set_intervals (id :: intervals s) (set_nextHandle (S id) s)).

Definition stopTimer (s : Hook) : Hook :=
  match timerRef s with
  | Some id => set_timerRef None (set_intervals (remove_handle id (intervals s)) s)
  | None => s
  end.

(** The descending preference list of the media types, as the nested tests
    of [startRecording] try them. *)
Definition negotiateMimeType (supported : jsstring -> bool) : jsstring :=
  let mimeType := js "audio/webm;codecs=opus" in
  if negb (supported mimeType) then
    let mimeType := js "audio/webm" in
    if negb (supported mimeType) then
      let mimeType := js "audio/mp4" in
      if negb (supported mimeType) then [] else mimeType
    else mimeType
  else mimeType.

(** The same negotiation in the specification's words: the first entry of
    the preference list the platform supports, the empty type when none is. *)
Definition preference : list jsstring :=
  [js "audio/webm;codecs=opus"; js "audio/webm"; js "audio/mp4"].

Definition first_supported (supported : jsstring -> bool) : jsstring :=
  match find supported preference with
  | Some mimeType => mimeType
  | None => []
  end.

(** [mediaRecorder.ondataavailable]. *)
Definition ondataavailable (data : Blob) (s : Hook) : Hook :=
  if (0 <? size data)%nat then set_chunksRef (chunksRef s ++ [data]) s else s.

(** [mediaRecorder.onstop], for the recorder that negotiated [mimeType]. *)
Definition onstop (mimeType : jsstring) (s : Hook) : Hook :=
  let mimeTypeForBlob := or_else mimeType (js "audio/webm") in
  let blob := newBlob (chunksRef s) mimeTypeForBlob in
  let s := set_audioBlob (Some blob) s in
  match streamRef s with
  | Some stream =>
      set_streamRef None (set_liveStreams (remove_handle stream (liveStreams s)) s)
  | None => s
  end.

(** [mediaRecorder.onerror]. *)
Definition onerror (s : Hook) : Hook :=
  stopTimer (set_isPaused false (set_isRecording false s)).

(** What the platform does when a recorder that is not inactive stops: the
    recorder becomes inactive, the data gathered since the last chunk is
    delivered to [ondataavailable], then [onstop] runs. *)
Definition finish (r : MediaRecorder) (final : Blob) (s : Hook) : Hook :=
  onstop (mimeType r)
    (ondataavailable final
       (set_mediaRecorderRef (Some (mkMediaRecorder inactive (mimeType r))) s)).

(** [mediaRecorder.stop()]; nothing happens on an inactive recorder. *)
Definition mediaRecorder_stop (r : MediaRecorder) (final : Blob) (s : Hook) : Hook :=
  match state r with
  | inactive => s
  | _ => finish r final s
  end.

(** How the platform calls inside the [try] of [startRecording] turn out:
    all of them succeed; [getUserMedia] rejects; the stream is granted and
    [new MediaRecorder] throws; the recorder is built and [start(1000)]
    throws. *)
Inductive start_outcome : Type :=
| Granted
| Rejected (name message : jsstring)
| RecorderThrows (name message : jsstring)
| StartThrows (name message : jsstring).

Record JsError : Type := mkJsError { error_name : jsstring; error_message : jsstring }.

Definition newError (message : jsstring) : JsError := mkJsError (js "Error") message.

Definition msg_unsupported : jsstring :=
  js "Audio recording is not supported in this browser".
Definition msg_denied : jsstring :=
  js "Microphone access denied. Please allow microphone access and try again.".
Definition msg_not_found : jsstring :=
  js "No microphone found. Please connect a microphone and try again.".
Definition msg_not_supported : jsstring :=
  js "Audio recording is not supported in this browser.".

(** The [catch] of [startRecording]. *)
Definition start_catch (name message : jsstring) : JsError :=
  if jsstring_eqb name (js "NotAllowedError") then newError msg_denied
  else if jsstring_eqb name (js "NotFoundError") then newError msg_not_found
  else if jsstring_eqb name (js "NotSupportedError") then newError msg_not_supported
  else mkJsError name message.

(** [startRecording]: the hook after the call has run to its end, from
    the state [s] in which [getUserMedia] settled, and what it threw, if it
    did. Nothing is touched before the [await]; there is no test of
    [isRecording] or of the refs; and the [catch] releases nothing, so a
    throw after the grant leaves the stream live and held by [streamRef]. *)
Definition startRecording (env : Browser) (r : start_outcome) (s : Hook)
  : Hook * option JsError :=
  if negb (isSupported env) then (s, Some (newError msg_unsupported))
  else
    match r with
    | Rejected name message => (s, Some (start_catch name message))
    | Granted =>
        let stream := nextHandle s in
        let s := set_liveStreams (stream :: liveStreams s) (set_nextHandle (S stream) s) in
        let s := set_streamRef (Some stream) s in
        let s := set_chunksRef [] s in
        let mimeType := negotiateMimeType (isTypeSupported env) in
        let mediaRecorder := mkMediaRecorder inactive mimeType in
        let s := set_mediaRecorderRef (Some mediaRecorder) s in
        (* mediaRecorder.start(1000) *)
        let s := set_mediaRecorderRef (Some (mkMediaRecorder recording mimeType)) s in
        let s := set_isRecording true s in
        let s := set_recordingTime 0 s in
        (startTimer s, None)
    | RecorderThrows name message =>
        let stream := nextHandle s in
        let s := set_liveStreams (stream :: liveStreams s) (set_nextHandle (S stream) s) in
        let s := set_streamRef (Some stream) s in
        let s := set_chunksRef [] s in
        (* new MediaRecorder(stream, ...) throws *)
        (s, Some (start_catch name message))
    | StartThrows name message =>
        let stream := nextHandle s in
        let s := set_liveStreams (stream :: liveStreams s) (set_nextHandle (S stream) s) in
        let s := set_streamRef (Some stream) s in
        let s := set_chunksRef [] s in
        let mimeType := negotiateMimeType (isTypeSupported env) in
        let mediaRecorder := mkMediaRecorder inactive mimeType in
        let s := set_mediaRecorderRef (Some mediaRecorder) s in
        (* mediaRecorder.start(1000) throws *)
        (s, Some (start_catch name message))
    end.

(** [stopRecording]; [final] is the data the platform delivers with the
    stop. *)
Definition stopRecording (final : Blob) (s : Hook) : Hook :=
  match mediaRecorderRef s with
  | Some r =>
      if isRecording s then
        stopTimer (set_isPaused false (set_isRecording false (mediaRecorder_stop r final s)))
      else s
  | None => s
  end.

Definition pauseRecording (s : Hook) : Hook :=
  match mediaRecorderRef s with
  | Some r =>
      if isRecording s && negb (isPaused s) then
        match state r with
        | recording =>
            stopTimer
              (set_isPaused true
                 (set_mediaRecorderRef (Some (mkMediaRecorder paused (mimeType r))) s))
        | _ => s
        end
      else s
  | None => s
  end.

Definition resumeRecording (s : Hook) : Hook :=
  match mediaRecorderRef s with
  | Some r =>
      if isRecording s && isPaused s then
        match state r with
        | paused =>
            startTimer
              (set_isPaused false
                 (set_mediaRecorderRef (Some (mkMediaRecorder recording (mimeType r))) s))
        | _ => s
        end
      else s
  | None => s
  end.

Definition clearRecording (s : Hook) : Hook :=
  set_chunksRef [] (set_recordingTime 0 (set_audioBlob None s)).

(** One second passes: every interval that is still set fires once, and
    each firing is [setRecordingTime(prev => prev + 1)]. *)
Definition tick (s : Hook) : Hook :=
  set_recordingTime (recordingTime s + Z.of_nat (length (intervals s))) s.

(** What can happen to the hook: a call of one of its five functions, a
    second passing, a chunk of the timeslice arriving, and the recorder
    failing. The last two come from the recorder the hook holds, and only
    while that recorder is not inactive. The page is single-threaded: an
    event is handled to its end before the next one, and the handlers the
    platform runs for a stop ([ondataavailable], then [onstop]) are taken to
    have run by then.

    [startRecording] is asynchronous, so a start is two events.
    [CallStartRecording] is the call: it runs up to [await getUserMedia]
    (or throws at once when recording is not supported) and touches nothing.
    [StartRecording r] is the moment the request settles and the call runs
    to its end with outcome [r]; anything may happen in between, another
    call included. *)
Inductive event : Type :=
| StartRecording (r : start_outcome)
| StopRecording (final : Blob)
| PauseRecording
| ResumeRecording
| ClearRecording
| Tick
| DataAvailable (data : Blob)
| RecorderError (final : Blob)
| CallStartRecording.

Definition step (env : Browser) (s : Hook) (e : event) : Hook :=
  match e with
  | StartRecording r => fst (startRecording env r s)
  | StopRecording final => stopRecording final s
  | PauseRecording => pauseRecording s
  | ResumeRecording => resumeRecording s
  | ClearRecording => clearRecording s
  | Tick => tick s
  | DataAvailable data =>
      match mediaRecorderRef s with
      | Some (mkMediaRecorder inactive _) | None => s
      | Some _ => ondataavailable data s
      end
  | RecorderError final =>
      match mediaRecorderRef s with
      | Some (mkMediaRecorder inactive _) | None => s
      | Some r => finish r final (onerror s)
      end
  | CallStartRecording => s
  end.

Definition run (env : Browser) (s : Hook) (events : list event) : Hook :=
  fold_left (step env) events s.

(** Events that neither open nor close a session. *)
Definition within_session (e : event) : bool :=
  match e with
  | PauseRecording | ResumeRecording | Tick | DataAvailable _ => true
  | _ => false
  end.

(** The chunks a sequence of events delivers, in arrival order. *)
Definition arrivals (events : list event) : list Blob :=
  flat_map (fun e => match e with DataAvailable data => [data] | _ => [] end) events.

Definition nonempty (b : Blob) : bool := (0 <? size b)%nat.


(** The timer and the flags agree: the set intervals are the one
    [timerRef] holds, which runs exactly while the hook is recording and
    not paused, and the recorder is in the state the flags tell. *)
Definition timer_consistent (s : Hook) : Prop :=
  intervals s = match timerRef s with Some t => [t] | None => [] end /\
  match isRecording s, isPaused s with
  | false, p => p = false /\ timerRef s = None
  | true, false =>
      (exists m, mediaRecorderRef s = Some (mkMediaRecorder recording m)) /\
      timerRef s <> None
  | true, true =>
      (exists m, mediaRecorderRef s = Some (mkMediaRecorder paused m)) /\
      timerRef s = None
  end.

(** The live streams are the one [streamRef] holds, and none is held
    outside a session. *)
Definition stream_consistent (s : Hook) : Prop :=
  liveStreams s = match streamRef s with Some x => [x] | None => [] end /\
  (isRecording s = false -> streamRef s = None).

(** Whether an event may come next in a careful use of the hook, given
    whether a call of [startRecording] is waiting for [getUserMedia]: a call
    is made only while [isRecording] is false and no earlier call is
    waiting; a request settles only if one is waiting. (The page tests the
    first of the two conditions only: it shows Start while [isRecording] is
    false.) *)
Definition permitted (s : Hook) (pending : bool) (e : event) : bool :=
  match e with
  | CallStartRecording => negb (isRecording s) && negb pending
  | StartRecording _ => pending
  | _ => true
  end.

(** Whether a call is waiting after the event: a call waits unless it threw
    at once for lack of support. *)
Definition pending_after (env : Browser) (pending : bool) (e : event) : bool :=
  match e with
  | CallStartRecording => isSupported env
  | StartRecording _ => false
  | _ => pending
  end.

Fixpoint orderly (env : Browser) (s : Hook) (pending : bool) (events : list event)
  : bool :=
  match events with
  | [] => true
  | e :: rest =>
      permitted s pending e
      && orderly env (step env s e) (pending_after env pending e) rest
  end.

(** A start that throws after the stream was granted. *)
Definition late_failure (e : event) : bool :=
  match e with
  | StartRecording (RecorderThrows _ _) | StartRecording (StartThrows _ _) => true
  | _ => false
  end.

(** A browser that records and supports every media type. *)
Definition exampleBrowser : Browser := mkBrowser true (fun _ => true).

Definition chunk (bytes : list Z) : Blob := mkBlob bytes [].



End Recorder.

(** ** The container read back: the other fields of the 44-byte header *)

Module Container.

Import Wav.

Definition chunkId (bytes : list Z) (off : nat) : list Z := firstn 4 (skipn off bytes).

Definition riffId (bytes : list Z) : list Z := chunkId bytes 0.
Definition riffSize (bytes : list Z) : Z := field bytes 4 4.
Definition waveId (bytes : list Z) : list Z := chunkId bytes 8.
Definition fmtId (bytes : list Z) : list Z := chunkId bytes 12.
Definition fmtSize (bytes : list Z) : Z := field bytes 16 4.
Definition dataId (bytes : list Z) : list Z := chunkId bytes 36.
Definition dataSize (bytes : list Z) : Z := field bytes 40 4.

(** The 16-bit signed integer a little-endian pair of bytes stands for. *)
Definition int16 (bs : list Z) : Z :=
  let u := le_value bs in if u <? 32768 then u else u - 65536.

End Container.

(** ** What the orchestrator's callers can see *)

Module Outcomes.

Import Api.

(** One of the two stages of [transcribeAndProcess] rejects with [e]: the
    transcription, or the chat completion after a transcription that was
    not blank. *)
Definition stage_rejects (env : Platform) (this : VoiceInteractionAPI)
    (audioBlob : Blob) (e : thrown) : Prop :=
  transcriptions env (transcription_request this (convertBlobToWav env audioBlob)) = inl e
  \/ exists heard,
       transcriptions env (transcription_request this (convertBlobToWav env audioBlob))
       = inr (mkTranscriptionData (Some heard)) /\
       no_speech (Some heard) = false /\
       chat_completions env (chat_request this heard) = inl e.

(** The messages [transcribeAndProcess] can reject with. *)
Definition groq_message (m : jsstring) : Prop :=
  m = msg_groq_key \/ m = msg_groq_401 \/ m = msg_groq_429 \/
  (exists errorMessage, m = msg_groq_400 errorMessage) \/
  m = msg_groq_timeout \/ m = msg_groq_generic.

(** The messages [convertTextToSpeech] can reject with. *)
Definition eleven_message (m : jsstring) : Prop :=
  m = msg_eleven_key \/ m = msg_no_text \/ m = msg_eleven_401 \/
  m = msg_eleven_429 \/ m = msg_eleven_422 \/ m = msg_eleven_timeout \/
  m = msg_eleven_generic.

(** A platform for examples whose transcription endpoint rejects. *)
Definition rejectingPlatform (e : thrown) : Platform :=
  mkPlatform
    (fun _ => None)
    (fun _ => inl e)
    (fun _ => inl e)
    (fun _ => inl e)
    (fun _ => js "blob:response")
    None
    (fun _ => true).

(** A platform for examples whose [AudioContext] constructor or reader
    fails. *)
Definition brokenAudioPlatform (context : option thrown) (reads : bool) : Platform :=
  mkPlatform
    (fun _ => None)
    (fun _ => inr (mkTranscriptionData (Some (js "Hello"))))
    (fun _ => inr (mkChatData (Some [mkChoice (js "Hi there!")]) None))
    (fun _ => inr None)
    (fun _ => js "blob:response")
    context
    (fun _ => reads).

Definition unauthorized : thrown :=
  AxiosError (js "Request failed with status code 401") (Some 401)
    (Some (js "ERR_BAD_REQUEST")) None.

End Outcomes.

(** ** The page component: [formatTime], [handleStartRecording] and the
    Regenerate button *)

Module Page.

Import Api Recorder.

(** [n.toString()] for an integer: its decimal digits, with a minus sign
    when negative. (JavaScript switches to exponent notation from 1e21 on;
    the elapsed seconds stay far below.) *)
Definition toString (n : Z) : jsstring :=
  js (NilZero.string_of_int (Z.to_int n)).

(** [s.padStart(targetLength, padString)]: the filler repeated and cut to
    the missing length, in front. *)
Definition padStart (s : jsstring) (targetLength : nat) (padString : jsstring) : jsstring :=
  let missing := (targetLength - length s)%nat in
  firstn missing (concat (repeat padString missing)) ++ s.

(** [formatTime]: [Math.floor(seconds / 60)], [seconds % 60] (the
    remainder has the sign of [seconds]), and the template. *)
Definition formatTime (seconds : Z) : jsstring :=
  let mins := seconds / 60 in
  let secs := Z.rem seconds 60 in
  toString mins ++ js ":" ++ padStart (toString secs) 2 (js "0").

(** The decimal digit of [d], as a code unit. *)
Definition digit (d : Z) : Z := 48 + d.

Definition msg_start_failed : jsstring :=
  js "Failed to start recording. Please check your microphone permissions.".

(** [handleStartRecording]: the hook after the call and the page's [error]
    ([setError(null)], then the fixed message if [startRecording] threw). *)
Definition handleStartRecording (env : Browser) (r : start_outcome) (s : Hook)
  : Hook * option jsstring :=
  match startRecording env r s with
  | (s', None) => (s', None)
  | (s', Some _) => (s', Some msg_start_failed)
  end.

(** The Regenerate button:
    [api.convertTextToSpeech(responseText).then(setAudioResponse)]. There is
    no rejection handler: a failure sets nothing. *)
Definition regenerateAudio (env : Platform) (api : VoiceInteractionAPI)
    (page : PageState) : list request * PageState :=
  match convertTextToSpeech env api (responseText page) default_voiceId with
  | (t, inr ttsResponse) =>
      (t, mkPageState (responseText page) (pageTranscribedText page)
            (Some ttsResponse) (error page))
  | (t, inl _) => (t, page)
  end.

End Page.

(* ================================================================== *)
(** * Part II: properties *)
(* ================================================================== *)

(** ** Strings *)

Section JsFacts.

Lemma trimStart_all_white (s : jsstring) :
  forallb isWhiteSpace s = true -> trimStart s = [].
Proof.
  induction s as [|c s IH]; simpl; [reflexivity|].
  intros H. apply andb_true_iff in H as [Hc Hs].
  rewrite Hc. exact (IH Hs).
Qed.

Lemma trim_all_white (s : jsstring) :
  forallb isWhiteSpace s = true -> trim s = [].
Proof.
  intros H. unfold trim. rewrite (trimStart_all_white s H). reflexivity.
Qed.

Lemma forallb_rev_eq (f : Z -> bool) (l : list Z) :
  forallb f (rev l) = forallb f l.
Proof.
  induction l as [|x l IH]; [reflexivity|].
  simpl. rewrite forallb_app, IH. simpl. rewrite andb_true_r. apply andb_comm.
Qed.

Lemma trimStart_nil_inv (s : jsstring) :
  trimStart s = [] -> forallb isWhiteSpace s = true.
Proof.
  induction s as [|c s IH]; simpl; [reflexivity|].
  destruct (isWhiteSpace c); simpl; [exact IH | discriminate].
Qed.

Lemma trimStart_suffix (s : jsstring) :
  exists p, s = p ++ trimStart s /\ forallb isWhiteSpace p = true.
Proof.
  induction s as [|c s [p [Hp Hw]]]; simpl.
  - exists []. split; reflexivity.
  - destruct (isWhiteSpace c) eqn:Hc.
    + exists (c :: p). split; [simpl; congruence | simpl; now rewrite Hc].
    + exists []. split; reflexivity.
Qed.

(** [trim] leaves nothing exactly of the strings made of white space. *)
Lemma trim_nil_iff (s : jsstring) :
  trim s = [] <-> forallb isWhiteSpace s = true.
Proof.
  split; [|apply trim_all_white].
  unfold trim, trimEnd. intros H.
  apply (f_equal (@rev Z)) in H. rewrite rev_involutive in H. simpl in H.
  apply trimStart_nil_inv in H. rewrite forallb_rev_eq in H.
  destruct (trimStart_suffix s) as [p [Hp Hw]].
  rewrite Hp, forallb_app, Hw, H. reflexivity.
Qed.

Lemma substring_0 (s : jsstring) (n : nat) : substring s 0 n = firstn n s.
Proof.
  unfold substring. simpl. rewrite Nat.sub_0_r.
  destruct (Nat.le_ge_cases n (length s)) as [H|H].
  - now rewrite Nat.min_l.
  - rewrite Nat.min_r by exact H.
    now rewrite !firstn_all2 by lia.
Qed.

End JsFacts.

(** ** The WAV container *)

Section WavFacts.

Import Wav.

Lemma length_le_bytes (n : nat) (v : Z) : length (le_bytes n v) = n.
Proof. unfold le_bytes. now rewrite length_map, length_seq. Qed.

Lemma store_over (pre old post bs : list Z) :
  length old = length bs ->
  store (pre ++ old ++ post) (length pre) bs = Some (pre ++ bs ++ post).
Proof.
  intros H. unfold store.
  replace (length pre + length bs <=? length (pre ++ old ++ post))%nat with true
    by (symmetry; apply Nat.leb_le; rewrite !length_app; lia).
  rewrite firstn_app, firstn_all, Nat.sub_diag, firstn_O, app_nil_r.
  rewrite skipn_app, skipn_all2 by lia.
  replace (length pre + length bs - length pre)%nat with (length old) by lia.
  rewrite skipn_app, skipn_all, Nat.sub_diag. reflexivity.
Qed.

Lemma emits_store (f : DataView -> nat -> option DataView) (bs : list Z) :
  (forall view off, f view off = store view off bs) ->
  emits (fun '(view, offset) =>
           match f view offset with
           | Some view' => Some (view', (offset + length bs)%nat)
           | None => None
           end) bs.
Proof.
  intros Hf pre old post H. rewrite Hf, (store_over _ _ _ _ H).
  now rewrite length_app, app_assoc.
Qed.

Lemma emits_putUint32 (v : Z) : emits (putUint32 v) (le_bytes 4 v).
Proof. exact (emits_store (fun view off => setUint32 view off v) _ (fun _ _ => eq_refl)). Qed.

Lemma emits_putUint16 (v : Z) : emits (putUint16 v) (le_bytes 2 v).
Proof. exact (emits_store (fun view off => setUint16 view off v) _ (fun _ _ => eq_refl)). Qed.

Lemma emits_putSample (channelData : list float) (i : nat) :
  emits (putSample channelData i) (encodeSample (sampleAt channelData i)).
Proof.
  exact (emits_store
           (fun view off => setInt16 view off (scaledSample (sampleAt channelData i)))
           _ (fun _ _ => eq_refl)).
Qed.

Lemma emits_andThen (f g : writer) (a b : list Z) :
  emits f a -> emits g b -> emits (f >> g) (a ++ b).
Proof.
  intros Hf Hg pre old post H. rewrite length_app in H.
  unfold andThen.
  rewrite <- (firstn_skipn (length a) old), <- app_assoc.
  rewrite Hf by (rewrite length_firstn; lia).
  rewrite Hg by (rewrite length_skipn; lia).
  now rewrite !app_assoc.
Qed.

Lemma emits_nothing : emits (fun c => Some c) [].
Proof.
  intros pre old post H. destruct old; [|discriminate].
  now rewrite !app_nil_r.
Qed.

Lemma writeChars_over (str : jsstring) :
  forall pre old post offset i0,
    length old = length str ->
    length pre = (offset + i0)%nat ->
    writeChars (pre ++ old ++ post) offset i0 str =
    Some (pre ++ low_bytes str ++ post).
Proof.
  induction str as [|ch str IH]; intros pre old post offset i0 Hlen Hpre.
  - destruct old; [reflexivity | discriminate].
  - destruct old as [|o old]; [discriminate|].
    simpl in Hlen. injection Hlen as Hlen.
    cbn [writeChars]. unfold setUint8. rewrite <- Hpre.
    change (o :: old) with ([o] ++ old). rewrite <- (app_assoc [o]).
    rewrite store_over by reflexivity.
    change (le_bytes 1 ch) with [Z.land (Z.shiftr ch 0) 255].
    rewrite Z.shiftr_0_r.
    replace (pre ++ [Z.land ch 255] ++ old ++ post)
      with ((pre ++ [Z.land ch 255]) ++ old ++ post) by now rewrite <- app_assoc.
    rewrite (IH _ old post offset (S i0) Hlen)
      by (rewrite length_app; simpl; lia).
    now rewrite <- app_assoc.
Qed.

Lemma emits_writeString (str : jsstring) :
  emits (writeString str) (low_bytes str).
Proof.
  intros pre old post H.
  assert (Hlow : length (low_bytes str) = length str)
    by (unfold low_bytes; apply length_map).
  rewrite Hlow in H. unfold writeString.
  rewrite (writeChars_over str pre old post (length pre) 0 H) by lia.
  now rewrite length_app, Hlow, app_assoc.
Qed.

Lemma emits_writeHeader (length : nat) (sampleRate channels : Z) :
  emits (writeHeader length sampleRate channels)
        (header_bytes length sampleRate channels).
Proof.
  unfold writeHeader, header_bytes.
  repeat rewrite app_assoc.
  repeat apply emits_andThen;
    auto using emits_writeString, emits_putUint32, emits_putUint16.
Qed.

Lemma emits_sampleLoop (channelData : list float) (n : nat) :
  forall i0,
    emits (sampleLoop channelData i0 n)
          (flat_map encodeSample (map (sampleAt channelData) (seq i0 n))).
Proof.
  induction n as [|n IH]; intros i0.
  - exact emits_nothing.
  - cbn [sampleLoop seq map flat_map].
    apply emits_andThen; [apply emits_putSample | apply IH].
Qed.

Lemma length_header_bytes (length0 : nat) (sampleRate channels : Z) :
  length (header_bytes length0 sampleRate channels) = 44%nat.
Proof. reflexivity. Qed.

Lemma length_samples (l : list float) :
  length (flat_map encodeSample l) = (length l * 2)%nat.
Proof.
  induction l as [|x l IH]; [reflexivity|].
  cbn [flat_map]. rewrite length_app, IH. unfold encodeSample.
  rewrite length_le_bytes. simpl. lia.
Qed.

Lemma samples_of_channel (l : list float) :
  map (sampleAt l) (seq 0 (length l)) = l.
Proof.
  apply nth_ext with (d := PrimFloat.nan) (d' := PrimFloat.nan).
  - now rewrite length_map, length_seq.
  - intros n Hn. rewrite length_map, length_seq in Hn.
    rewrite (nth_indep _ _ (sampleAt l 0%nat)) by (rewrite length_map, length_seq; lia).
    rewrite map_nth, seq_nth by lia. reflexivity.
Qed.

Lemma le_bytes_succ (n : nat) (v : Z) :
  le_bytes (S n) v = Z.land v 255 :: le_bytes n (Z.shiftr v 8).
Proof.
  unfold le_bytes. cbn [seq map]. rewrite Z.shiftr_0_r. f_equal.
  rewrite <- seq_shift, map_map. apply map_ext. intros k.
  rewrite Z.shiftr_shiftr by lia. do 2 f_equal. lia.
Qed.

(** Reading back a little-endian field gives the stored value modulo the
    field's width. *)
Lemma le_value_le_bytes (n : nat) :
  forall v, le_value (le_bytes n v) = v mod 2 ^ (8 * Z.of_nat n).
Proof.
  induction n as [|n IH]; intros v.
  - cbn. now rewrite Z.mod_1_r.
  - rewrite le_bytes_succ. cbn [le_value]. rewrite IH.
    change 255 with (Z.ones 8). rewrite Z.land_ones, Z.shiftr_div_pow2 by lia.
    replace (8 * Z.of_nat (S n)) with (8 + 8 * Z.of_nat n) by lia.
    rewrite Z.pow_add_r by lia.
    rewrite Z.rem_mul_r by lia. reflexivity.
Qed.

Lemma wav_data_of_bytes (length0 : nat) (sampleRate channels : Z) (data : list Z) :
  wav_data (header_bytes length0 sampleRate channels ++ data) = data.
Proof.
  unfold wav_data.
  rewrite skipn_app, skipn_all2, length_header_bytes by (rewrite length_header_bytes; lia).
  reflexivity.
Qed.

(** The header fields of the container [audioBufferToWav] writes. *)
Lemma header_fields (length0 : nat) (sampleRate channels : Z) (data : list Z) :
  let bytes := header_bytes length0 sampleRate channels ++ data in
  wav_audioFormat bytes = 1 /\
  wav_numChannels bytes = channels mod 2 ^ 16 /\
  wav_sampleRate bytes = sampleRate mod 2 ^ 32 /\
  wav_byteRate bytes = (sampleRate * 2) mod 2 ^ 32 /\
  wav_blockAlign bytes = 2 /\
  wav_bitsPerSample bytes = 16.
Proof.
  pose proof (le_value_le_bytes 2 channels) as Hc.
  pose proof (le_value_le_bytes 4 sampleRate) as Hr.
  pose proof (le_value_le_bytes 4 (sampleRate * 2)) as Hb.
  cbv zeta.
  unfold wav_audioFormat, wav_numChannels, wav_sampleRate, wav_byteRate,
    wav_blockAlign, wav_bitsPerSample, field, header_bytes.
  rewrite !le_bytes_succ in *.
  change (le_bytes 0 _) with (@nil Z) in *.
  repeat split; try reflexivity; cbn [app skipn firstn low_bytes map js];
    assumption.
Qed.

(** What [audioBufferToWav] returns for a buffer that has a channel 0: the
    header followed by the encoded samples of channel 0 at the indices
    [0 .. length-1]. *)
Lemma audioBufferToWav_bytes (buffer : AudioBuffer) (channelData : list float) :
  getChannelData buffer 0 = Some channelData ->
  audioBufferToWav buffer =
  Some (mkBlob
          (header_bytes (ab_length buffer) (ab_sampleRate buffer) (numberOfChannels buffer)
           ++ flat_map encodeSample
                (map (sampleAt channelData) (seq 0 (ab_length buffer))))
          (js "audio/wav")).
Proof.
  intros Hch. unfold audioBufferToWav, newArrayBuffer. cbv zeta.
  set (L := ab_length buffer).
  set (hdr := header_bytes L (ab_sampleRate buffer) (numberOfChannels buffer)).
  set (data := flat_map encodeSample (map (sampleAt channelData) (seq 0 L))).
  assert (Hdata : length data = (L * 2)%nat).
  { unfold data. now rewrite length_samples, length_map, length_seq. }
  assert (Hview : repeat 0 (44 + L * 2) = [] ++ repeat 0 44 ++ (repeat 0 (L * 2) ++ []))
    by (now rewrite app_nil_r, repeat_app).
  rewrite Hview.
  match goal with
  | |- context [writeHeader ?a ?b ?c ?d] =>
      replace (writeHeader a b c d) with (Some (([] ++ hdr) ++ repeat 0 (L * 2) ++ [], 44%nat))
        by (symmetry;
            exact (emits_writeHeader L (ab_sampleRate buffer) (numberOfChannels buffer)
                     [] (repeat 0 44) (repeat 0 (L * 2) ++ []) (repeat_length 0 44)))
  end.
  rewrite Hch.
  match goal with
  | |- context [sampleLoop ?a ?b ?c ?d] =>
      replace (sampleLoop a b c d)
        with (Some ((([] ++ hdr) ++ data) ++ [], length (([] ++ hdr) ++ data)))
        by (symmetry;
            apply (emits_sampleLoop channelData L 0 ([] ++ hdr) (repeat 0 (L * 2)) []);
            rewrite repeat_length; fold data; lia)
  end.
  unfold newBlob. cbn [flat_map blob_bytes app].
  now rewrite !app_nil_r.
Qed.

(** C10. For every decoded buffer of [L] frames, [audioBufferToWav] returns
    a blob of exactly [44 + 2 * L] bytes, whatever the number of channels,
    and the data section after the 44-byte header is the encoding of the
    samples of channel 0 and of nothing else. *)
Theorem wav_size_and_data (buffer : AudioBuffer) :
  well_formed buffer ->
  exists wav channelData,
    audioBufferToWav buffer = Some wav /\
    getChannelData buffer 0 = Some channelData /\
    blob_type wav = js "audio/wav" /\
    size wav = (44 + 2 * ab_length buffer)%nat /\
    wav_data (blob_bytes wav) = flat_map encodeSample channelData.
Proof.
  intros [Hne Hlen].
  destruct buffer as [L sr chans]. cbn [ab_channels ab_length] in *.
  destruct chans as [|ch0 more]; [contradiction|].
  apply Forall_inv in Hlen.
  pose proof (audioBufferToWav_bytes (mkAudioBuffer L sr (ch0 :: more)) ch0 eq_refl) as H.
  cbn [ab_length ab_sampleRate] in H.
  rewrite <- Hlen, samples_of_channel in H.
  eexists; exists ch0. split; [rewrite <- Hlen; exact H|].
  split; [reflexivity|]. split; [reflexivity|].
  cbn [blob_bytes]. split.
  - unfold size. cbn [blob_bytes].
    rewrite length_app, length_header_bytes, length_samples. lia.
  - apply wav_data_of_bytes.
Qed.

Lemma wav_size_and_data_witness :
  exists wav,
    audioBufferToWav stereoBuffer = Some wav /\
    size wav = 48%nat /\
    wav_data (blob_bytes wav) = [255; 63; 1; 224].
Proof.
  destruct (wav_size_and_data stereoBuffer) as [wav [ch [H [Hch [_ [Hs Hd]]]]]].
  - split; [discriminate | repeat constructor].
  - exists wav. split; [exact H|]. split; [exact Hs|].
    rewrite Hd. injection Hch as <-. vm_compute. reflexivity.
Defined.

(** C3, at a decoded buffer of two channels. The header [audioBufferToWav]
    writes declares two channels, the buffer's count, and not one, while its
    block alignment, its byte rate and its data section are those of a
    single channel: the container is byte for byte the one written for
    channel 0 alone, but for the channel field. *)
Theorem wav_header_of_stereo_buffer :
  exists stereo mono,
    audioBufferToWav stereoBuffer = Some stereo /\
    audioBufferToWav monoBuffer = Some mono /\
    wav_numChannels (blob_bytes stereo) = 2 /\
    wav_numChannels (blob_bytes mono) = 1 /\
    wav_blockAlign (blob_bytes stereo) = 2 /\
    wav_bitsPerSample (blob_bytes stereo) = 16 /\
    wav_sampleRate (blob_bytes stereo) = ab_sampleRate stereoBuffer /\
    wav_byteRate (blob_bytes stereo) = 2 * ab_sampleRate stereoBuffer /\
    wav_data (blob_bytes stereo) = wav_data (blob_bytes mono).
Proof.
  eexists. eexists.
  split; [vm_compute; reflexivity|].
  split; [vm_compute; reflexivity|].
  repeat split; vm_compute; reflexivity.
Qed.

(** For every decoded buffer the header declares 16-bit PCM samples, the
    buffer's sample rate, a block alignment of one 16-bit sample, and as
    many channels as the buffer has (each field modulo its width). *)
Theorem wav_header_fields (buffer : AudioBuffer) :
  well_formed buffer ->
  exists wav,
    audioBufferToWav buffer = Some wav /\
    wav_audioFormat (blob_bytes wav) = 1 /\
    wav_numChannels (blob_bytes wav) = numberOfChannels buffer mod 2 ^ 16 /\
    wav_sampleRate (blob_bytes wav) = ab_sampleRate buffer mod 2 ^ 32 /\
    wav_byteRate (blob_bytes wav) = (ab_sampleRate buffer * 2) mod 2 ^ 32 /\
    wav_blockAlign (blob_bytes wav) = 2 /\
    wav_bitsPerSample (blob_bytes wav) = 16.
Proof.
  intros [Hne _].
  destruct (getChannelData buffer 0) as [ch0|] eqn:Hch.
  - eexists. split; [exact (audioBufferToWav_bytes buffer ch0 Hch)|].
    cbn [blob_bytes]. apply header_fields.
  - unfold getChannelData in Hch. destruct (ab_channels buffer); [contradiction | discriminate].
Qed.

Lemma wav_header_fields_witness :
  exists wav,
    audioBufferToWav monoBuffer = Some wav /\
    wav_numChannels (blob_bytes wav) = 1 /\
    wav_sampleRate (blob_bytes wav) = 16000 /\
    wav_bitsPerSample (blob_bytes wav) = 16.
Proof.
  destruct (wav_header_fields monoBuffer) as [wav [H [_ [Hc [Hr [_ [_ Hb]]]]]]].
  - split; [discriminate | repeat constructor].
  - exists wav. split; [exact H|]. split; [exact Hc|]. split; [exact Hr | exact Hb].
Defined.

End WavFacts.

(** ** The orchestrator *)

Section ApiFacts.

Import Wav Api.

Variable env : Platform.
Variable this : VoiceInteractionAPI.

Lemma no_speech_blank (t : option jsstring) : no_speech t = true <-> blank t.
Proof.
  destruct t as [t|]; simpl; [|tauto].
  rewrite orb_true_iff, Nat.eqb_eq, length_zero_iff_nil, trim_nil_iff.
  split; [|tauto].
  intros [H|H]; [|exact H]. destruct t; [reflexivity | discriminate].
Qed.

Lemma no_choices_missing (c : option (list Choice)) :
  no_choices c = true <-> missing_choices c.
Proof.
  unfold missing_choices. destruct c as [[|x l]|]; simpl; split; intros H;
    try tauto; try discriminate; destruct H; discriminate.
Qed.

(** Whatever the [catch] of [transcribeAndProcess] is handed, it issues no
    request; an [Error] of the code's own leaves it as the generic failure. *)
Lemma groq_catch_own_error (A : Type) (m : jsstring) :
  @groq_catch A (Error m) = ([], inl (Error msg_groq_generic)).
Proof. reflexivity. Qed.

(** The run of [transcribeAndProcess] on a transcription with no speech. *)
Lemma transcribe_no_speech (audioBlob : Blob) (data : TranscriptionData) :
  truthy (groqApiKey this) = true ->
  transcriptions env (transcription_request this (convertBlobToWav env audioBlob)) = inr data ->
  no_speech (td_text data) = true ->
  transcribeAndProcess env this audioBlob =
  ([transcription_request this (convertBlobToWav env audioBlob)],
   inl (Error msg_groq_generic)).
Proof.
  intros Hkey Hresp Hblank. unfold transcribeAndProcess.
  rewrite Hkey. cbn [negb]. cbv zeta.
  unfold axios_post, bind. rewrite Hresp, Hblank. reflexivity.
Qed.

(** The run of [transcribeAndProcess] on a chat completion with no choice. *)
Lemma transcribe_no_choices (audioBlob : Blob) (heard : jsstring) (reply : ChatData) :
  truthy (groqApiKey this) = true ->
  transcriptions env (transcription_request this (convertBlobToWav env audioBlob))
    = inr (mkTranscriptionData (Some heard)) ->
  no_speech (Some heard) = false ->
  chat_completions env (chat_request this heard) = inr reply ->
  no_choices (cd_choices reply) = true ->
  transcribeAndProcess env this audioBlob =
  ([transcription_request this (convertBlobToWav env audioBlob); chat_request this heard],
   inl (Error msg_groq_generic)).
Proof.
  intros Hkey Hresp Hheard Hchat Hnone. unfold transcribeAndProcess.
  rewrite Hkey. cbn [negb]. cbv zeta.
  unfold axios_post, bind. rewrite Hresp. cbn [td_text]. rewrite Hheard, Hchat, Hnone.
  reflexivity.
Qed.

(** C1. When the transcription's text is blank (missing, empty or white
    space only), [transcribeAndProcess] issues the transcription request and
    no other, so never the chat completion; what it throws to its caller is
    the generic failure of its [catch], which replaces the "No speech was
    detected" error thrown inside the [try]. *)
Theorem blank_transcription_run (audioBlob : Blob) (data : TranscriptionData) :
  truthy (groqApiKey this) = true ->
  transcriptions env (transcription_request this (convertBlobToWav env audioBlob)) = inr data ->
  blank (td_text data) ->
  let run := transcribeAndProcess env this audioBlob in
  requests run = [transcription_request this (convertBlobToWav env audioBlob)] /\
  existsb is_chat_request (requests run) = false /\
  outcome run = inl (Error msg_groq_generic) /\
  jsstring_eqb msg_groq_generic msg_no_speech = false.
Proof.
  intros Hkey Hresp Hblank. apply no_speech_blank in Hblank.
  cbv zeta. rewrite (transcribe_no_speech audioBlob data Hkey Hresp Hblank).
  repeat split.
Qed.

(** C4. When the chat completion has no choice (the list is missing or
    empty), no speech-synthesis request is issued by [handleProcessAudio];
    what [transcribeAndProcess] throws, and the page shows, is the generic
    failure of its [catch], which replaces the "No response generated from
    AI model" error thrown inside the [try]. *)
Theorem missing_choices_run (audioBlob : Blob) (heard : jsstring) (reply : ChatData) :
  truthy (groqApiKey this) = true ->
  transcriptions env (transcription_request this (convertBlobToWav env audioBlob))
    = inr (mkTranscriptionData (Some heard)) ->
  ~ blank (Some heard) ->
  chat_completions env (chat_request this heard) = inr reply ->
  missing_choices (cd_choices reply) ->
  outcome (transcribeAndProcess env this audioBlob) = inl (Error msg_groq_generic) /\
  existsb is_speech_request (fst (handleProcessAudio env this (Some audioBlob))) = false /\
  option_map error (snd (handleProcessAudio env this (Some audioBlob)))
    = Some (Some msg_groq_generic) /\
  jsstring_eqb msg_groq_generic msg_no_choices = false.
Proof.
  intros Hkey Hresp Hheard Hchat Hnone.
  assert (Hs : no_speech (Some heard) = false).
  { destruct (no_speech (Some heard)) eqn:E; [|reflexivity].
    apply no_speech_blank in E. contradiction. }
  apply no_choices_missing in Hnone.
  unfold handleProcessAudio.
  rewrite (transcribe_no_choices audioBlob heard reply Hkey Hresp Hs Hchat Hnone).
  repeat split.
Qed.


(** The only request [convertTextToSpeech] ever issues. *)
Lemma speech_requests (text voiceId : jsstring) :
  truthy (elevenLabsApiKey this) = true ->
  no_text text = false ->
  requests (convertTextToSpeech env this text voiceId)
  = [speech_request this voiceId text].
Proof.
  intros Hkey Htext. unfold convertTextToSpeech. rewrite Hkey, Htext. cbn [negb].
  unfold axios_post, bind, try_catch, requests.
  destruct (text_to_speech env _) as [e|data].
  - destruct e as [m|m st c d]; cbn; [reflexivity|].
    destruct (status_is st 401); [reflexivity|].
    destruct (status_is st 429); [reflexivity|].
    destruct (status_is st 422); [reflexivity|].
    destruct (code_is c _); reflexivity.
  - destruct (no_audio data); [reflexivity|]. destruct data; reflexivity.
Qed.

(** C6. The text sent to the speech-synthesis endpoint is the first 2500
    code units of the reply: exactly 2500 of them when the reply is longer,
    the reply itself when it is not. *)
Theorem speech_text_is_truncated (text voiceId : jsstring) :
  truthy (elevenLabsApiKey this) = true ->
  no_text text = false ->
  exists sent,
    requests (convertTextToSpeech env this text voiceId)
    = [SpeechRequest voiceId sent (js "eleven_monolingual_v1") (elevenLabsApiKey this)] /\
    sent = firstn 2500 text /\
    (2500 < length text -> length sent = 2500 /\ exists rest, text = sent ++ rest)%nat /\
    (length text <= 2500 -> sent = text)%nat.
Proof.
  intros Hkey Htext. exists (firstn 2500 text).
  split; [|split; [reflexivity|split]].
  - rewrite (speech_requests text voiceId Hkey Htext).
    unfold speech_request, max_text_length. now rewrite substring_0.
  - intros Hlong. split.
    + apply firstn_length_le. lia.
    + exists (skipn 2500 text). symmetry. apply firstn_skipn.
  - intros Hshort. now apply firstn_all2.
Qed.

(** The whole pipeline when every stage succeeds: the three requests go out
    in order, and the page ends with the reply, the transcription and a
    playable resource whose bytes are the ones the synthesis returned. *)
Theorem pipeline_success (audioBlob : Blob) (heard : jsstring) (choice : Choice)
    (others : list Choice) (u : option Usage) (audio : Blob) :
  truthy (groqApiKey this) = true ->
  truthy (elevenLabsApiKey this) = true ->
  transcriptions env (transcription_request this (convertBlobToWav env audioBlob))
    = inr (mkTranscriptionData (Some heard)) ->
  ~ blank (Some heard) ->
  chat_completions env (chat_request this heard)
    = inr (mkChatData (Some (choice :: others)) u) ->
  no_text (message_content choice) = false ->
  text_to_speech env (speech_request this default_voiceId (message_content choice))
    = inr (Some audio) ->
  size audio <> 0%nat ->
  let played := newBlob [audio] (js "audio/mpeg") in
  handleProcessAudio env this (Some audioBlob)
  = ([transcription_request this (convertBlobToWav env audioBlob);
      chat_request this heard;
      speech_request this default_voiceId (message_content choice)],
     Some (mkPageState (message_content choice) heard
             (Some (mkElevenLabsResponse (createObjectURL env played) played)) None))
  /\ size played = size audio.
Proof.
  intros Hg He Ht Hheard Hc Htext Hs Hsize played.
  assert (Hn : no_speech (Some heard) = false).
  { destruct (no_speech (Some heard)) eqn:E; [|reflexivity].
    apply no_speech_blank in E. contradiction. }
  split.
  - unfold handleProcessAudio, transcribeAndProcess, convertTextToSpeech.
    rewrite Hg, He. cbn [negb]. cbv zeta.
    unfold axios_post, bind, try_catch. rewrite Ht. cbn [td_text].
    rewrite Hn, Hc. cbn [cd_choices no_choices length Nat.eqb].
    cbn [ret app text transcribedText].
    rewrite Htext, Hs. unfold no_audio.
    apply Nat.eqb_neq in Hsize. rewrite Hsize. reflexivity.
  - unfold played, newBlob, size. cbn. now rewrite app_nil_r.
Qed.

End ApiFacts.

Lemma pipeline_success_witness :
  let audio := mkBlob (repeat 7 4096) [] in
  let env := Api.examplePlatform (Some (js "Hello"))
               (Some [Api.mkChoice (js "Hi there!")]) (Some audio) in
  option_map (fun r => Js.size (Api.audioBlob r))
    (match snd (Api.handleProcessAudio env Api.exampleApi (Some Api.someRecording)) with
     | Some page => Api.audioResponse page
     | None => None
     end)
  = Some 4096%nat.
Proof.
  cbv zeta.
  destruct (pipeline_success
              (Api.examplePlatform (Some (js "Hello"))
                 (Some [Api.mkChoice (js "Hi there!")])
                 (Some (mkBlob (repeat 7 4096) [])))
              Api.exampleApi Api.someRecording (js "Hello")
              (Api.mkChoice (js "Hi there!")) [] None (mkBlob (repeat 7 4096) []))
    as [Hrun Hsize].
  - reflexivity.
  - reflexivity.
  - reflexivity.
  - simpl. discriminate.
  - reflexivity.
  - reflexivity.
  - reflexivity.
  - unfold Js.size. cbn [blob_bytes]. rewrite repeat_length. discriminate.
  - rewrite Hrun. cbn [snd Api.audioResponse option_map Api.audioBlob].
    rewrite Hsize. unfold Js.size. cbn [blob_bytes]. now rewrite repeat_length.
Defined.

Lemma blank_transcription_run_witness :
  let env := Api.examplePlatform (Some (js "   ")) None None in
  Api.requests (Api.transcribeAndProcess env Api.exampleApi Api.someRecording)
  = [Api.transcription_request Api.exampleApi
       (Api.convertBlobToWav env Api.someRecording)] /\
  Api.outcome (Api.transcribeAndProcess env Api.exampleApi Api.someRecording)
  = inl (Api.Error Api.msg_groq_generic).
Proof.
  cbv zeta.
  destruct (blank_transcription_run
              (Api.examplePlatform (Some (js "   ")) None None) Api.exampleApi
              Api.someRecording (Api.mkTranscriptionData (Some (js "   "))))
    as [Hreq [_ [Hout _]]].
  - reflexivity.
  - reflexivity.
  - reflexivity.
  - split; [exact Hreq | exact Hout].
Defined.

Lemma missing_choices_run_witness :
  let env := Api.examplePlatform (Some (js "Hello")) (Some []) None in
  existsb Api.is_speech_request
    (fst (Api.handleProcessAudio env Api.exampleApi (Some Api.someRecording))) = false /\
  option_map Api.error (snd (Api.handleProcessAudio env Api.exampleApi (Some Api.someRecording)))
  = Some (Some Api.msg_groq_generic).
Proof.
  cbv zeta.
  destruct (missing_choices_run
              (Api.examplePlatform (Some (js "Hello")) (Some []) None) Api.exampleApi
              Api.someRecording (js "Hello") (Api.mkChatData (Some []) None))
    as [_ [Hreq [Herr _]]].
  - reflexivity.
  - reflexivity.
  - simpl. discriminate.
  - reflexivity.
  - right. reflexivity.
  - split; [exact Hreq | exact Herr].
Defined.


Lemma speech_text_is_truncated_witness :
  exists sent,
    Api.requests
      (Api.convertTextToSpeech (Api.examplePlatform None None None) Api.exampleApi
         Api.longText Api.default_voiceId)
    = [Api.SpeechRequest Api.default_voiceId sent (js "eleven_monolingual_v1")
         (Api.elevenLabsApiKey Api.exampleApi)] /\
    length Api.longText = 2501%nat /\
    length sent = 2500%nat.
Proof.
  destruct (speech_text_is_truncated (Api.examplePlatform None None None) Api.exampleApi
              Api.longText Api.default_voiceId) as [sent [Hreq [_ [Hlong _]]]].
  - reflexivity.
  - vm_compute. reflexivity.
  - exists sent. split; [exact Hreq|].
    assert (Hlen : length Api.longText = 2501%nat) by (vm_compute; reflexivity).
    split; [exact Hlen|]. apply Hlong. rewrite Hlen. lia.
Defined.

(** ** The recorder hook *)

Section RecorderFacts.

Import Recorder.

Variable env : Browser.

(** C8. The media type [startRecording] negotiates is the first entry of
    the preference list audio/webm;codecs=opus, audio/webm, audio/mp4 that
    the platform supports; it is the empty type, the platform's default,
    exactly when none of the three is supported. *)
Theorem negotiation_picks_first_supported (supported : jsstring -> bool) :
  negotiateMimeType supported = first_supported supported /\
  (negotiateMimeType supported = [] <->
   forallb (fun mimeType => negb (supported mimeType)) preference = true).
Proof.
  unfold negotiateMimeType, first_supported, preference. cbn [find forallb].
  destruct (supported (js "audio/webm;codecs=opus"));
    destruct (supported (js "audio/webm"));
    destruct (supported (js "audio/mp4"));
    cbn [negb andb]; (split; [reflexivity|]); split; intros H;
    try reflexivity; try discriminate H.
Qed.

Ltac hook_cases s :=
  destruct s as [rec pau time blob mr stream chunks timer live ints next].

Lemma remove_handle_only (h : nat) : remove_handle h [h] = [].
Proof. unfold remove_handle. cbn. now rewrite Nat.eqb_refl. Qed.

Ltac hook_simpl := cbn -[Nat.ltb remove_handle] in *.

Ltac hook_unfold :=
  unfold startRecording, stopRecording, pauseRecording, resumeRecording,
    clearRecording, tick, mediaRecorder_stop, finish, ondataavailable, onstop,
    onerror, stopTimer, startTimer in *.

(** A careful use of the hook keeps the timer and the flags in agreement,
    and the hook idle while a call waits. *)
Lemma step_timer (s : Hook) (pending : bool) (e : event) :
  timer_consistent s -> (pending = true -> isRecording s = false) ->
  permitted s pending e = true ->
  timer_consistent (step env s e) /\
  (pending_after env pending e = true -> isRecording (step env s e) = false).
Proof.
  hook_cases s. unfold timer_consistent. hook_simpl.
  intros (Hints & Hflags) Hpend Hperm. subst ints.
  destruct e as [r|final| | | | |data|final| ]; hook_simpl; hook_unfold; hook_simpl.
  - (* StartRecording *)
    subst pending. rewrite (Hpend eq_refl) in *. destruct Hflags as (-> & ->).
    split; [|discriminate].
    destruct (isSupported env); hook_simpl; [|auto].
    destruct r; hook_simpl; repeat split; eauto; discriminate.
  - (* StopRecording *)
    destruct mr as [[st m]|]; hook_simpl.
    + destruct rec; hook_simpl; [|auto].
      split; [|intros Hp; specialize (Hpend Hp); discriminate Hpend].
      destruct pau; destruct Hflags as ([m' Hm] & Ht); injection Hm as -> ->;
        hook_simpl; destruct (0 <? size final)%nat; hook_simpl;
        destruct stream, timer; hook_simpl; rewrite ?remove_handle_only;
        auto; congruence.
    + destruct rec; [|auto]. destruct pau; destruct Hflags as ([m' Hm] & _); discriminate.
  - (* PauseRecording *)
    destruct mr as [[st m]|]; hook_simpl; [|auto].
    destruct rec, pau; hook_simpl; auto.
    destruct Hflags as ([m' Hm] & Ht); injection Hm as -> ->.
    hook_simpl. destruct timer; [|congruence]. hook_simpl.
    rewrite remove_handle_only. split; [eauto|].
    intros Hp; specialize (Hpend Hp); discriminate Hpend.
  - (* ResumeRecording *)
    destruct mr as [[st m]|]; hook_simpl; [|auto].
    destruct rec, pau; hook_simpl; auto.
    destruct Hflags as ([m' Hm] & ->); injection Hm as -> ->.
    hook_simpl. split; [repeat split; eauto; discriminate|].
    intros Hp; specialize (Hpend Hp); discriminate Hpend.
  - (* ClearRecording *)
    auto.
  - (* Tick *)
    auto.
  - (* DataAvailable *)
    destruct mr as [[[] m]|]; hook_simpl; auto;
      destruct (0 <? size data)%nat; hook_simpl; auto.
  - (* RecorderError *)
    destruct mr as [[[] m]|]; hook_simpl; auto;
      destruct timer; hook_simpl;
      destruct (0 <? size final)%nat; hook_simpl;
      destruct stream; hook_simpl; rewrite ?remove_handle_only; auto;
      destruct rec, pau; hook_simpl; intuition congruence.
  - (* CallStartRecording *)
    apply andb_true_iff in Hperm as [Hrec _]. destruct rec; [discriminate Hrec|]. auto.
Qed.

(** With no throw after a grant, it also keeps the streams in agreement
    with [streamRef]. *)
Lemma step_stream (s : Hook) (pending : bool) (e : event) :
  timer_consistent s -> stream_consistent s ->
  (pending = true -> isRecording s = false) ->
  permitted s pending e = true -> late_failure e = false ->
  stream_consistent (step env s e).
Proof.
  hook_cases s. unfold timer_consistent, stream_consistent. hook_simpl.
  intros (_ & Hflags) (Hlive & Hidle) Hpend Hperm Hlate. subst live.
  destruct e as [r|final| | | | |data|final| ]; hook_simpl; hook_unfold; hook_simpl.
  - (* StartRecording *)
    subst pending. rewrite (Hpend eq_refl) in *. rewrite (Hidle eq_refl).
    destruct (isSupported env); hook_simpl; [|auto].
    destruct r; hook_simpl; try discriminate Hlate; split; auto; discriminate.
  - (* StopRecording *)
    destruct mr as [[st m]|]; hook_simpl.
    + destruct rec; hook_simpl; [|auto].
      destruct pau; destruct Hflags as ([m' Hm] & Ht); injection Hm as -> ->;
        hook_simpl; destruct (0 <? size final)%nat; hook_simpl;
        destruct stream, timer; hook_simpl; rewrite ?remove_handle_only; auto.
    + destruct rec; [|auto]. destruct pau; destruct Hflags as ([m' Hm] & _); discriminate.
  - (* PauseRecording *)
    destruct mr as [[st m]|]; hook_simpl; [|auto].
    destruct (rec && negb pau) eqn:Hc; [|auto].
    destruct st; hook_simpl; auto. destruct timer; hook_simpl; auto.
  - (* ResumeRecording *)
    destruct mr as [[st m]|]; hook_simpl; [|auto].
    destruct (rec && pau) eqn:Hc; [|auto].
    destruct st; hook_simpl; auto.
  - (* ClearRecording *)
    auto.
  - (* Tick *)
    auto.
  - (* DataAvailable *)
    destruct mr as [[[] m]|]; hook_simpl; auto;
      destruct (0 <? size data)%nat; hook_simpl; auto.
  - (* RecorderError *)
    destruct mr as [[[] m]|]; hook_simpl; auto;
      destruct timer; hook_simpl;
      destruct (0 <? size final)%nat; hook_simpl;
      destruct stream; hook_simpl; rewrite ?remove_handle_only; auto.
  - (* CallStartRecording *)
    auto.
Qed.

Lemma initial_timer_consistent : timer_consistent initial.
Proof. unfold timer_consistent. cbn. auto. Qed.

Lemma initial_stream_consistent : stream_consistent initial.
Proof. unfold stream_consistent. cbn. auto. Qed.

Lemma run_timer (events : list event) :
  forall s pending,
    timer_consistent s -> (pending = true -> isRecording s = false) ->
    orderly env s pending events = true ->
    timer_consistent (run env s events).
Proof.
  induction events as [|e events IH]; intros s pending Hs Hp Hok; [exact Hs|].
  cbn in Hok. apply andb_true_iff in Hok as [He Hrest].
  destruct (step_timer s pending e Hs Hp He) as [Hs' Hp'].
  cbn [run fold_left]. exact (IH _ _ Hs' Hp' Hrest).
Qed.

Lemma run_stream (events : list event) :
  forall s pending,
    timer_consistent s -> stream_consistent s ->
    (pending = true -> isRecording s = false) ->
    orderly env s pending events = true ->
    existsb late_failure events = false ->
    stream_consistent (run env s events).
Proof.
  induction events as [|e events IH]; intros s pending Ht Hs Hp Hok Hlate; [exact Hs|].
  cbn in Hok. apply andb_true_iff in Hok as [He Hrest].
  cbn [existsb] in Hlate. apply orb_false_iff in Hlate as [Hl Hlate].
  destruct (step_timer s pending e Ht Hp He) as [Ht' Hp'].
  pose proof (step_stream s pending e Ht Hs Hp He Hl) as Hs'.
  cbn [run fold_left]. exact (IH _ _ Ht' Hs' Hp' Hrest Hlate).
Qed.

(** What a granted [startRecording] does, in any state of the hook. *)
Lemma startRecording_granted (s : Hook) :
  isSupported env = true ->
  snd (startRecording env Granted s) = None /\
  liveStreams (fst (startRecording env Granted s)) = nextHandle s :: liveStreams s /\
  streamRef (fst (startRecording env Granted s)) = Some (nextHandle s) /\
  chunksRef (fst (startRecording env Granted s)) = [] /\
  isRecording (fst (startRecording env Granted s)) = true /\
  recordingTime (fst (startRecording env Granted s)) = 0 /\
  mediaRecorderRef (fst (startRecording env Granted s))
  = Some (mkMediaRecorder recording (negotiateMimeType (isTypeSupported env))).
Proof.
  intros Hsup. unfold startRecording. rewrite Hsup. hook_cases s.
  repeat split.
Qed.





Lemma filter_nonempty_snoc (l : list Blob) (b : Blob) :
  filter nonempty (l ++ [b]) = filter nonempty l ++ (if (0 <? size b)%nat then [b] else []).
Proof. rewrite filter_app. reflexivity. Qed.

(** Inside a session the chunk buffer grows by the non-empty chunks that
    arrive, in their order, and by nothing else. *)
Lemma session_chunks (m : jsstring) (events : list event) :
  forall s st,
    forallb within_session events = true ->
    mediaRecorderRef s = Some (mkMediaRecorder st m) -> st <> inactive ->
    let s' := run env s events in
    chunksRef s' = chunksRef s ++ filter nonempty (arrivals events) /\
    isRecording s' = isRecording s /\
    exists st', mediaRecorderRef s' = Some (mkMediaRecorder st' m) /\ st' <> inactive.
Proof.
  induction events as [|e events IH]; intros s st Hin Hmr Hst; cbv zeta.
  - cbn. rewrite app_nil_r. eauto.
  - cbn [forallb] in Hin. apply andb_true_iff in Hin as [He Hin].
    cbn [run fold_left].
    assert (Hstep : chunksRef (step env s e)
                    = chunksRef s ++ filter nonempty (arrivals [e]) /\
                    isRecording (step env s e) = isRecording s /\
                    exists st', mediaRecorderRef (step env s e) = Some (mkMediaRecorder st' m)
                                /\ st' <> inactive).
    { hook_cases s. hook_simpl. subst mr.
      destruct e; try discriminate He; hook_simpl; hook_unfold; hook_simpl.
      - destruct rec, pau, st, timer; try contradiction; hook_simpl;
          rewrite app_nil_r; repeat split; eexists; split;
          try reflexivity; discriminate.
      - destruct rec, pau, st; try contradiction; hook_simpl;
          rewrite app_nil_r; repeat split; eexists; split;
          try reflexivity; discriminate.
      - rewrite app_nil_r. eauto.
      - unfold nonempty.
        destruct st; try contradiction;
          destruct (0 <? size data)%nat; hook_simpl; rewrite ?app_nil_r;
          repeat split; eexists; split; try reflexivity; discriminate. }
    destruct Hstep as (Hc & Hr & st' & Hmr' & Hst').
    destruct (IH (step env s e) st' Hin Hmr' Hst') as (Hc2 & Hr2 & Hmr2).
    fold (run env (step env s e) events).
    split; [|split; [congruence | exact Hmr2]].
    rewrite Hc2, Hc, <- app_assoc. f_equal.
    change (e :: events) with ([e] ++ events).
    unfold arrivals. now rewrite flat_map_app, filter_app.
Qed.

(** C9. A chunk of size zero leaves the hook as it is; and in a session
    that a granted start opens, whatever pauses, resumes, ticks and chunks
    follow, the chunk buffer holds the non-empty chunks in arrival order and
    the artifact made at stop is their concatenation, the data delivered
    with the stop included. *)
Theorem artifact_is_the_nonempty_chunks (s0 : Hook) (events : list event) (final : Blob) :
  isSupported env = true ->
  forallb within_session events = true ->
  let s := run env s0 (StartRecording Granted :: events) in
  (forall s1 data, size data = 0%nat -> step env s1 (DataAvailable data) = s1) /\
  chunksRef s = filter nonempty (arrivals events) /\
  audioBlob (step env s (StopRecording final))
  = Some (newBlob (filter nonempty (arrivals events ++ [final]))
            (or_else (negotiateMimeType (isTypeSupported env)) (js "audio/webm"))) /\
  option_map blob_bytes (audioBlob (step env s (StopRecording final)))
  = Some (flat_map blob_bytes (filter nonempty (arrivals events ++ [final]))).
Proof.
  intros Hsup Hin s.
  assert (Hzero : forall s1 data, size data = 0%nat -> step env s1 (DataAvailable data) = s1).
  { intros s1 data Hz. cbn [step]. unfold ondataavailable. rewrite Hz.
    destruct (mediaRecorderRef s1) as [[[] ?]|]; reflexivity. }
  destruct (startRecording_granted s0 Hsup) as (_ & _ & _ & Hch & Hrec & _ & Hmr).
  destruct (session_chunks _ events (fst (startRecording env Granted s0)) recording
              Hin Hmr ltac:(discriminate)) as (Hc & Hr & st' & Hmr' & Hst').
  change (run env (fst (startRecording env Granted s0)) events) with s in Hc, Hr, Hmr'.
  rewrite Hch in Hc. cbn [app] in Hc. rewrite Hrec in Hr.
  assert (Hblob : audioBlob (step env s (StopRecording final))
                  = Some (newBlob (filter nonempty (arrivals events ++ [final]))
                            (or_else (negotiateMimeType (isTypeSupported env))
                               (js "audio/webm")))).
  { rewrite filter_nonempty_snoc, <- Hc. clear Hc.
    cbn [step]. unfold stopRecording. rewrite Hmr', Hr.
    unfold mediaRecorder_stop. cbn [state].
    replace (match st' with inactive => s | _ => finish (mkMediaRecorder st' _) final s end)
      with (finish (mkMediaRecorder st'
                      (negotiateMimeType (isTypeSupported env))) final s)
      by (destruct st'; [contradiction | reflexivity | reflexivity]).
    hook_cases s. hook_unfold. hook_simpl.
    destruct (0 <? size final)%nat; hook_simpl; rewrite ?app_nil_r;
      destruct stream, timer; reflexivity. }
  split; [exact Hzero|]. split; [exact Hc|]. split; [exact Hblob|].
  rewrite Hblob. reflexivity.
Qed.

(** Stop releases the capture device: in a careful use of the hook with no
    throw after a grant, no stream is live after a stop, whatever pauses
    and resumes came before. *)
Theorem stop_releases_the_device (events : list event) (final : Blob) :
  orderly env initial false events = true ->
  existsb late_failure events = false ->
  liveStreams (step env (run env initial events) (StopRecording final)) = [] /\
  isRecording (step env (run env initial events) (StopRecording final)) = false.
Proof.
  intros Hok Hlate.
  pose proof (run_timer events initial false initial_timer_consistent
                ltac:(discriminate) Hok) as Ht.
  pose proof (run_stream events initial false initial_timer_consistent
                initial_stream_consistent ltac:(discriminate) Hok Hlate) as Hs.
  pose proof (step_stream _ false (StopRecording final) Ht Hs
                ltac:(discriminate) eq_refl eq_refl) as Hs'.
  assert (Hrec : isRecording (step env (run env initial events) (StopRecording final)) = false).
  { clear Hs Hs'. set (s := run env initial events) in *. clearbody s.
    hook_cases s. unfold timer_consistent in Ht. hook_simpl. hook_unfold. hook_simpl.
    destruct Ht as (_ & Hflags).
    destruct mr as [[st m]|]; hook_simpl.
    - destruct rec; hook_simpl; [|reflexivity].
      destruct st; hook_simpl;
        try (destruct pau; destruct Hflags as ([m' Hm] & _); discriminate Hm);
        destruct (0 <? size final)%nat; hook_simpl;
        destruct stream, timer; reflexivity.
    - destruct rec; [|reflexivity].
      destruct pau; destruct Hflags as ([m' Hm] & _); discriminate. }
  split; [|exact Hrec].
  destruct Hs' as (Hlive & Hidle). now rewrite Hlive, (Hidle Hrec).
Qed.

End RecorderFacts.

Lemma stop_releases_the_device_witness :
  Recorder.liveStreams
    (Recorder.step Recorder.exampleBrowser
       (Recorder.run Recorder.exampleBrowser Recorder.initial
          [Recorder.CallStartRecording; Recorder.StartRecording Recorder.Granted;
           Recorder.PauseRecording; Recorder.ResumeRecording; Recorder.PauseRecording])
       (Recorder.StopRecording (Recorder.chunk [1; 2]))) = [].
Proof.
  destruct (stop_releases_the_device Recorder.exampleBrowser
              [Recorder.CallStartRecording; Recorder.StartRecording Recorder.Granted;
               Recorder.PauseRecording; Recorder.ResumeRecording; Recorder.PauseRecording]
              (Recorder.chunk [1; 2])) as [Hlive _].
  - reflexivity.
  - reflexivity.
  - exact Hlive.
Defined.





Lemma artifact_is_the_nonempty_chunks_witness :
  let events := [Recorder.DataAvailable (Recorder.chunk [1; 2]);
                 Recorder.DataAvailable (Recorder.chunk []);
                 Recorder.PauseRecording;
                 Recorder.ResumeRecording;
                 Recorder.DataAvailable (Recorder.chunk [3])] in
  let s := Recorder.run Recorder.exampleBrowser Recorder.initial
             (Recorder.StartRecording Recorder.Granted :: events) in
  Recorder.chunksRef s = [Recorder.chunk [1; 2]; Recorder.chunk [3]] /\
  option_map Js.blob_bytes
    (Recorder.audioBlob
       (Recorder.step Recorder.exampleBrowser s (Recorder.StopRecording (Recorder.chunk [4]))))
  = Some [1; 2; 3; 4].
Proof.
  cbv zeta.
  destruct (artifact_is_the_nonempty_chunks Recorder.exampleBrowser Recorder.initial
              [Recorder.DataAvailable (Recorder.chunk [1; 2]);
               Recorder.DataAvailable (Recorder.chunk []);
               Recorder.PauseRecording;
               Recorder.ResumeRecording;
               Recorder.DataAvailable (Recorder.chunk [3])] (Recorder.chunk [4]))
    as (_ & Hchunks & _ & Hbytes).
  - reflexivity.
  - reflexivity.
  - split; [exact Hchunks | exact Hbytes].
Defined.

(** ** The orchestrator: guards, rejections and requests *)

Section ApiOutcomes.

Import Wav Api Outcomes.

Variable env : Platform.
Variable this : VoiceInteractionAPI.

Lemma truthy_nil_iff (k : jsstring) : truthy k = false <-> k = [].
Proof. destruct k; simpl; split; intros H; congruence. Qed.

(** Without a Groq key nothing is sent: [transcribeAndProcess] rejects at
    once with "Groq API key is not configured", which reaches the page as it
    is, and [handleProcessAudio] issues no request at all. *)
Theorem missing_groq_key_stops_the_pipeline (audioBlob : Blob) :
  groqApiKey this = [] ->
  transcribeAndProcess env this audioBlob = ([], inl (Error msg_groq_key)) /\
  handleProcessAudio env this (Some audioBlob)
  = ([], Some (mkPageState [] [] None (Some msg_groq_key))).
Proof.
  intros Hkey.
  assert (H : transcribeAndProcess env this audioBlob = ([], inl (Error msg_groq_key)))
    by (unfold transcribeAndProcess; now rewrite Hkey).
  split; [exact H|]. unfold handleProcessAudio. now rewrite H.
Qed.

(** What the [catch] of [transcribeAndProcess] throws is always an [Error]
    with one of its five messages. *)
Lemma groq_catch_message (A : Type) (e : thrown) :
  exists m, @groq_catch A e = ([], inl (Error m)) /\ groq_message m /\
            m <> msg_groq_key.
Proof.
  unfold groq_message.
  destruct e as [m|m st c d]; cbn [groq_catch].
  - eexists. split; [reflexivity|]. split; [tauto | discriminate].
  - destruct (status_is st 401); [eexists; split; [reflexivity|split; [tauto|discriminate]]|].
    destruct (status_is st 429); [eexists; split; [reflexivity|split; [tauto|discriminate]]|].
    destruct (status_is st 400).
    + eexists. split; [reflexivity|]. split; [|discriminate].
      right. right. right. left. eexists. reflexivity.
    + destruct (code_is c _); eexists; (split; [reflexivity|split; [tauto|discriminate]]).
Qed.

(** The run of [transcribeAndProcess] with a key, by what the two endpoints
    answer. *)
Lemma transcribe_run (audioBlob : Blob) :
  truthy (groqApiKey this) = true ->
  let treq := transcription_request this (convertBlobToWav env audioBlob) in
  transcribeAndProcess env this audioBlob =
  match transcriptions env treq with
  | inl e => ([treq], snd (@groq_catch GroqResponse e))
  | inr data =>
      if no_speech (td_text data) then ([treq], inl (Error msg_groq_generic))
      else
        let heard := match td_text data with Some t => t | None => [] end in
        match chat_completions env (chat_request this heard) with
        | inl e => ([treq; chat_request this heard], snd (@groq_catch GroqResponse e))
        | inr reply =>
            match cd_choices reply with
            | Some (choice :: _) =>
                ([treq; chat_request this heard],
                 inr (mkGroqResponse (message_content choice) (Some heard) (cd_usage reply)))
            | _ => ([treq; chat_request this heard], inl (Error msg_groq_generic))
            end
        end
  end.
Proof.
  intros Hkey treq. unfold transcribeAndProcess. rewrite Hkey. cbn [negb]. cbv zeta.
  fold treq. unfold axios_post, bind, try_catch.
  destruct (transcriptions env treq) as [e|data].
  - destruct (groq_catch_message GroqResponse e) as (m & Hcatch & _). rewrite Hcatch. reflexivity.
  - destruct (no_speech (td_text data)); [reflexivity|].
    destruct (chat_completions env _) as [e|reply].
    + destruct (groq_catch_message GroqResponse e) as (m & Hcatch & _). rewrite Hcatch. reflexivity.
    + destruct (cd_choices reply) as [[|choice l]|]; reflexivity.
Qed.

(** Whatever the services do, a rejection of [transcribeAndProcess] is an
    [Error] carrying one of six messages: the missing key, invalid key,
    rate limit, bad request (with the service's message), timeout, or the
    generic failure. It is never the raw [AxiosError], and never the "No
    speech was detected" or "No response generated" message. *)
Theorem transcribe_rejections (audioBlob : Blob) (e : thrown) :
  outcome (transcribeAndProcess env this audioBlob) = inl e ->
  exists m, e = Error m /\ groq_message m /\
            m <> msg_no_speech /\ m <> msg_no_choices.
Proof.
  assert (Hm : forall m, groq_message m -> m <> msg_no_speech /\ m <> msg_no_choices).
  { intros m [ -> | [ -> | [ -> | [ [d -> ] | [ -> | -> ] ] ] ] ]; split; discriminate. }
  assert (Hgen : groq_message msg_groq_generic) by (unfold groq_message; tauto).
  intros H. destruct (truthy (groqApiKey this)) eqn:Hkey.
  - rewrite (transcribe_run audioBlob Hkey) in H. cbv zeta in H. unfold outcome in H.
    destruct (transcriptions env _) as [e0|data].
    + destruct (groq_catch_message GroqResponse e0) as [m [Hc [Hg _]]].
      rewrite Hc in H. cbn in H. injection H as <-. exists m. repeat split; try apply Hm; auto.
    + destruct (no_speech (td_text data)).
      * cbn in H. injection H as <-. eexists. repeat split; try apply Hm; auto.
      * destruct (chat_completions env _) as [e0|reply].
        -- destruct (groq_catch_message GroqResponse e0) as [m [Hc [Hg _]]].
           rewrite Hc in H. cbn in H. injection H as <-.
           exists m. repeat split; try apply Hm; auto.
        -- destruct (cd_choices reply) as [[|choice l]|]; cbn in H; try discriminate;
             injection H as <-; eexists; repeat split; try apply Hm; auto.
  - unfold transcribeAndProcess in H. rewrite Hkey in H. cbn in H. injection H as <-.
    eexists. split; [reflexivity|]. split; [unfold groq_message; tauto|].
    split; discriminate.
Qed.

(** The requests of a run of [transcribeAndProcess], by cases. *)
Lemma transcribe_requests_cases (audioBlob : Blob) :
  let treq := transcription_request this (convertBlobToWav env audioBlob) in
  let run := transcribeAndProcess env this audioBlob in
  (requests run = [] /\ groqApiKey this = []) \/
  requests run = [treq] \/
  exists heard,
    transcriptions env treq = inr (mkTranscriptionData (Some heard)) /\
    requests run = [treq; chat_request this heard].
Proof.
  cbv zeta. destruct (truthy (groqApiKey this)) eqn:Hkey.
  - rewrite (transcribe_run audioBlob Hkey). cbv zeta. unfold requests.
    destruct (transcriptions env _) as [e0|[t]] eqn:Ht; [right; left; reflexivity|].
    cbn [td_text]. destruct (no_speech t) eqn:Hs; [right; left; reflexivity|].
    destruct t as [heard|]; [|discriminate Hs].
    right. right. exists heard. split; [reflexivity|].
    destruct (chat_completions env _) as [e0|reply]; [reflexivity|].
    destruct (cd_choices reply) as [[|choice l]|]; reflexivity.
  - left. apply truthy_nil_iff in Hkey. unfold transcribeAndProcess.
    rewrite Hkey. split; reflexivity.
Qed.

(** The requests of a call of [transcribeAndProcess] that settles are none,
    or the transcription alone, or the transcription followed by one chat
    completion. The transcription carries the adapted file under the name
    audio.wav, the model whisper-large-v3, the format json, the language en
    and the bearer key; the chat completion carries the fixed system
    instruction, as user turn the transcribed text exactly as the service
    gave it (untrimmed), the model llama3-8b-8192 and the bearer key. No
    request is repeated. *)
Theorem transcribe_requests_shape (audioBlob : Blob) (run : io GroqResponse) :
  transcribeAndProcess_call env this audioBlob = Some run ->
  let treq :=
    TranscriptionRequest (convertBlobToWav env audioBlob) (js "audio.wav")
      (js "whisper-large-v3") (js "json") (js "en")
      (js "Bearer " ++ groqApiKey this) in
  requests run = [] \/
  requests run = [treq] \/
  exists heard,
    transcriptions env treq = inr (mkTranscriptionData (Some heard)) /\
    requests run
    = [treq;
       ChatRequest
         (js "You are a helpful AI assistant. Provide clear, concise, and informative responses to user questions. Keep your responses conversational and engaging, but not too long.")
         heard (js "llama3-8b-8192") (js "Bearer " ++ groqApiKey this)].
Proof.
  intros Hcall. cbv zeta. unfold transcribeAndProcess_call in Hcall.
  destruct (truthy (groqApiKey this)) eqn:Hkey; cbn [negb] in Hcall.
  - destruct (convertBlobToWav_promise env audioBlob) as [wav|e|]; [| |discriminate Hcall].
    + injection Hcall as <-.
      destruct (transcribe_requests_cases audioBlob) as [[H _]|[H|[heard [Ht H]]]].
      * left. exact H.
      * right. left. exact H.
      * right. right. exists heard. split; [exact Ht | exact H].
    + injection Hcall as <-. left.
      destruct (groq_catch_message GroqResponse e) as (m & Hc & _).
      rewrite Hc. reflexivity.
  - injection Hcall as <-. left. reflexivity.
Qed.

(** What becomes of a call of [transcribeAndProcess] when the format
    adaptation does not resolve. When the [AudioContext] constructor throws,
    the promise of [convertBlobToWav] rejects, and the call rejects with
    one of the messages of its [catch] (the generic failure for any error
    that is not an [AxiosError]) without sending anything. When the read
    fails, the promise never settles, and neither does the call. *)
Theorem format_adaptation_failures (audioBlob : Blob) :
  truthy (groqApiKey this) = true ->
  (forall e, newAudioContext env = Some e ->
     convertBlobToWav_promise env audioBlob = Rejects e /\
     exists m,
       transcribeAndProcess_call env this audioBlob = Some ([], inl (Error m)) /\
       groq_message m /\
       (forall m0, e = Error m0 -> m = msg_groq_generic)) /\
  (newAudioContext env = None -> readAsArrayBuffer env audioBlob = false ->
     convertBlobToWav_promise env audioBlob = NeverSettles /\
     transcribeAndProcess_call env this audioBlob = None).
Proof.
  intros Hkey. unfold transcribeAndProcess_call, convertBlobToWav_promise.
  rewrite Hkey. cbn [negb]. split.
  - intros e ->. split; [reflexivity|].
    destruct (groq_catch_message GroqResponse e) as (m & Hc & Hm & _).
    exists m. rewrite Hc. repeat split; [exact Hm|].
    intros m0 ->. unfold groq_catch, throw in Hc. injection Hc as <-. reflexivity.
  - intros -> ->. split; reflexivity.
Qed.

(** How a rejection of either stage is reported: by the response's status
    first (401 invalid key, 429 rate limit, 400 bad request with the
    service's message or a default), then by the timeout code, and as the
    generic failure otherwise; a rejection that is not an [AxiosError] is
    the generic failure too. *)
Theorem groq_failure_taxonomy (audioBlob : Blob) (e : thrown) :
  truthy (groqApiKey this) = true ->
  stage_rejects env this audioBlob e ->
  exists m,
    outcome (transcribeAndProcess env this audioBlob) = inl (Error m) /\
    match e with
    | Error _ => m = msg_groq_generic
    | AxiosError _ status code detail =>
        (status = Some 401 -> m = msg_groq_401) /\
        (status = Some 429 -> m = msg_groq_429) /\
        (status = Some 400 ->
         m = js "Groq API Error: "
             ++ match detail with
                | Some (c :: d) => c :: d
                | _ => js "Bad request to Groq API"
                end) /\
        (status <> Some 401 -> status <> Some 429 -> status <> Some 400 ->
         (code = Some (js "ECONNABORTED") -> m = msg_groq_timeout) /\
         (code <> Some (js "ECONNABORTED") -> m = msg_groq_generic))
    end.
Proof.
  intros Hkey Hrej.
  assert (Hout : outcome (transcribeAndProcess env this audioBlob)
                 = snd (@groq_catch GroqResponse e)).
  { rewrite (transcribe_run audioBlob Hkey). cbv zeta. unfold outcome.
    destruct Hrej as [Ht | [heard [Ht [Hs Hc]]]].
    - now rewrite Ht.
    - rewrite Ht. cbn [td_text]. rewrite Hs, Hc. reflexivity. }
  rewrite Hout. clear Hout Hrej.
  destruct e as [m0|m0 st c d]; [eexists; split; reflexivity|].
  cbn [groq_catch].
  assert (Hst : forall n, status_is st n = true <-> st = Some n).
  { intros n. destruct st as [z|]; simpl; [|split; discriminate].
    rewrite Z.eqb_eq. split; congruence. }
  assert (Hcode : forall a b : jsstring, jsstring_eqb a b = true <-> a = b).
  { induction a as [|x a IH]; destruct b as [|y b]; simpl; split; intros H;
      try reflexivity; try discriminate.
    - apply andb_true_iff in H as [Hx Hab]. apply Z.eqb_eq in Hx. apply IH in Hab. congruence.
    - injection H as -> ->. rewrite Z.eqb_refl. now apply IH. }
  destruct (status_is st 401) eqn:H401.
  { apply Hst in H401. subst st. eexists. split; [reflexivity|].
    repeat split; intros; try reflexivity; try discriminate; congruence. }
  destruct (status_is st 429) eqn:H429.
  { apply Hst in H429. subst st. eexists. split; [reflexivity|].
    repeat split; intros; try reflexivity; try discriminate; congruence. }
  destruct (status_is st 400) eqn:H400.
  { apply Hst in H400. subst st. eexists. split; [reflexivity|].
    repeat split; intros; try discriminate; try congruence.
    unfold msg_groq_400, or_else. destruct d as [[|c0 d]|]; reflexivity. }
  assert (N401 : st <> Some 401) by (intros E; apply Hst in E; congruence).
  assert (N429 : st <> Some 429) by (intros E; apply Hst in E; congruence).
  assert (N400 : st <> Some 400) by (intros E; apply Hst in E; congruence).
  destruct (code_is c (js "ECONNABORTED")) eqn:Hc.
  - eexists. split; [reflexivity|]. repeat split; intros; try contradiction; try reflexivity.
    exfalso. destruct c as [c0|]; [|discriminate Hc]. simpl in Hc.
    apply Hcode in Hc. congruence.
  - eexists. split; [reflexivity|]. repeat split; intros; try contradiction; try reflexivity.
    exfalso. subst c. simpl in Hc. 
    assert (Hrefl : jsstring_eqb (js "ECONNABORTED") (js "ECONNABORTED") = true)
      by (apply Hcode; reflexivity).
    congruence.
Qed.

(** When decoding succeeds, the file sent for transcription is the WAV
    container of the decoded buffer: type audio/wav, [44 + 2 * length]
    bytes. *)
Theorem decoded_recording_is_sent_as_wav (audioBlob : Blob) (buffer : AudioBuffer) :
  truthy (groqApiKey this) = true ->
  decodeAudioData env (blob_bytes audioBlob) = Some buffer ->
  well_formed buffer ->
  exists wav,
    audioBufferToWav buffer = Some wav /\
    convertBlobToWav env audioBlob = wav /\
    blob_type wav = js "audio/wav" /\
    size wav = (44 + 2 * ab_length buffer)%nat /\
    hd_error (requests (transcribeAndProcess env this audioBlob))
    = Some (TranscriptionRequest wav (js "audio.wav") (js "whisper-large-v3")
              (js "json") (js "en") (js "Bearer " ++ groqApiKey this)).
Proof.
  intros Hkey Hdec [Hne Hlen].
  destruct (getChannelData buffer 0) as [ch0|] eqn:Hch.
  2:{ unfold getChannelData in Hch. destruct (ab_channels buffer); [contradiction|discriminate]. }
  pose proof (audioBufferToWav_bytes buffer ch0 Hch) as Hwav.
  eexists. split; [exact Hwav|].
  assert (Hconv : convertBlobToWav env audioBlob = _)
    by (unfold convertBlobToWav; rewrite Hdec, Hwav; reflexivity).
  split; [exact Hconv|]. split; [reflexivity|]. split.
  - unfold size. cbn [blob_bytes].
    rewrite length_app, length_header_bytes, length_samples, length_map, length_seq. lia.
  - pose proof (transcribe_requests_cases audioBlob) as Hshape. cbv zeta in Hshape.
    rewrite Hconv in Hshape.
    destruct Hshape as [[_ Hk]|[Hr|[heard [_ Hr]]]].
    + rewrite Hk in Hkey. discriminate Hkey.
    + rewrite Hr. reflexivity.
    + rewrite Hr. reflexivity.
Qed.

End ApiOutcomes.

Lemma missing_groq_key_stops_the_pipeline_witness :
  Api.handleProcessAudio (Api.examplePlatform (Some (js "Hello")) None None)
    (Api.setApiKeys [] (js "xi")) (Some Api.someRecording)
  = ([], Some (Api.mkPageState [] [] None (Some Api.msg_groq_key))).
Proof.
  destruct (missing_groq_key_stops_the_pipeline
              (Api.examplePlatform (Some (js "Hello")) None None)
              (Api.setApiKeys [] (js "xi")) Api.someRecording) as [_ H].
  - reflexivity.
  - exact H.
Defined.

Lemma transcribe_rejections_witness :
  exists m,
    Api.outcome
      (Api.transcribeAndProcess (Outcomes.rejectingPlatform Outcomes.unauthorized)
         Api.exampleApi Api.someRecording) = inl (Api.Error m) /\
    Outcomes.groq_message m.
Proof.
  destruct (transcribe_rejections (Outcomes.rejectingPlatform Outcomes.unauthorized)
              Api.exampleApi Api.someRecording (Api.Error Api.msg_groq_401))
    as [m [Hm [Hg _]]].
  - reflexivity.
  - exists m. split; [rewrite <- Hm; reflexivity | exact Hg].
Defined.

Lemma groq_failure_taxonomy_witness :
  Api.outcome
    (Api.transcribeAndProcess (Outcomes.rejectingPlatform Outcomes.unauthorized)
       Api.exampleApi Api.someRecording) = inl (Api.Error Api.msg_groq_401).
Proof.
  destruct (groq_failure_taxonomy (Outcomes.rejectingPlatform Outcomes.unauthorized)
              Api.exampleApi Api.someRecording Outcomes.unauthorized)
    as [m [Hout [H401 _]]].
  - reflexivity.
  - left. reflexivity.
  - rewrite Hout, (H401 eq_refl). reflexivity.
Defined.

Lemma transcribe_requests_shape_witness :
  length
    (Api.requests
       (Api.transcribeAndProcess
          (Api.examplePlatform (Some (js " Hello ")) (Some [Api.mkChoice (js "Hi there!")])
             None)
          Api.exampleApi Api.someRecording)) = 2%nat.
Proof.
  destruct (transcribe_requests_shape
              (Api.examplePlatform (Some (js " Hello "))
                 (Some [Api.mkChoice (js "Hi there!")]) None)
              Api.exampleApi Api.someRecording
              (Api.transcribeAndProcess
                 (Api.examplePlatform (Some (js " Hello "))
                    (Some [Api.mkChoice (js "Hi there!")]) None)
                 Api.exampleApi Api.someRecording))
    as [H|[H|[heard [_ H]]]].
  - reflexivity.
  - vm_compute in H. discriminate H.
  - vm_compute in H. discriminate H.
  - rewrite H. reflexivity.
Defined.

Lemma format_adaptation_failures_witness :
  Api.transcribeAndProcess_call
    (Outcomes.brokenAudioPlatform (Some (Api.Error (js "AudioContext is not defined"))) true)
    Api.exampleApi Api.someRecording
  = Some ([], inl (Api.Error Api.msg_groq_generic)) /\
  Api.transcribeAndProcess_call (Outcomes.brokenAudioPlatform None false)
    Api.exampleApi Api.someRecording = None.
Proof.
  destruct (format_adaptation_failures
              (Outcomes.brokenAudioPlatform
                 (Some (Api.Error (js "AudioContext is not defined"))) true)
              Api.exampleApi Api.someRecording eq_refl) as [Hthrow _].
  destruct (format_adaptation_failures (Outcomes.brokenAudioPlatform None false)
              Api.exampleApi Api.someRecording eq_refl) as [_ Hread].
  split.
  - destruct (Hthrow _ eq_refl) as [_ [m [Hcall [_ Hm]]]].
    rewrite Hcall, (Hm _ eq_refl). reflexivity.
  - exact (proj2 (Hread eq_refl eq_refl)).
Defined.

Lemma decoded_recording_is_sent_as_wav_witness :
  exists wav,
    Api.convertBlobToWav (Api.examplePlatform None None None) Api.someRecording = wav /\
    Js.size wav = 48%nat.
Proof.
  destruct (decoded_recording_is_sent_as_wav (Api.examplePlatform None None None)
              Api.exampleApi Api.someRecording Wav.monoBuffer)
    as [wav [_ [Hconv [_ [Hsize _]]]]].
  - reflexivity.
  - reflexivity.
  - split; [discriminate | repeat constructor].
  - exists wav. split; [exact Hconv | exact Hsize].
Defined.

(** ** Speech synthesis and the page's use of it *)

Section SpeechOutcomes.

Import Api Outcomes Page.

Variable env : Platform.
Variable this : VoiceInteractionAPI.

Lemma no_text_blank (text : jsstring) :
  no_text text = true <-> forallb isWhiteSpace text = true.
Proof.
  unfold no_text.
  rewrite orb_true_iff, Nat.eqb_eq, length_zero_iff_nil, trim_nil_iff.
  split; [|tauto].
  intros [H|H]; [|exact H]. destruct text; [reflexivity | discriminate H].
Qed.

(** The two guards of [convertTextToSpeech] send nothing and are reported as
    they are: without a key "ElevenLabs API key is not configured", with a
    key and an empty or white-space text "No text provided for speech
    synthesis". *)
Theorem speech_guards (text voiceId : jsstring) :
  (elevenLabsApiKey this = [] ->
   convertTextToSpeech env this text voiceId = ([], inl (Error msg_eleven_key))) /\
  (elevenLabsApiKey this <> [] -> forallb isWhiteSpace text = true ->
   convertTextToSpeech env this text voiceId = ([], inl (Error msg_no_text))).
Proof.
  unfold convertTextToSpeech. split.
  - intros ->. reflexivity.
  - intros Hkey Hblank. apply no_text_blank in Hblank.
    destruct (elevenLabsApiKey this); [contradiction|]. cbn [truthy negb].
    now rewrite Hblank.
Qed.

(** The [catch] of [convertTextToSpeech] throws an [Error] with one of its
    five messages. *)
Lemma eleven_catch_message (A : Type) (e : thrown) :
  exists m, @eleven_catch A e = ([], inl (Error m)) /\
            (m = msg_eleven_401 \/ m = msg_eleven_429 \/ m = msg_eleven_422 \/
             m = msg_eleven_timeout \/ m = msg_eleven_generic).
Proof.
  destruct e as [m|m st c d]; cbn [eleven_catch].
  - eexists. split; [reflexivity | tauto].
  - destruct (status_is st 401); [eexists; split; [reflexivity | tauto]|].
    destruct (status_is st 429); [eexists; split; [reflexivity | tauto]|].
    destruct (status_is st 422); [eexists; split; [reflexivity | tauto]|].
    destruct (code_is c _); eexists; (split; [reflexivity | tauto]).
Qed.

(** The run of [convertTextToSpeech] once both guards are passed. *)
Lemma speech_run (text voiceId : jsstring) :
  truthy (elevenLabsApiKey this) = true ->
  no_text text = false ->
  let req := speech_request this voiceId text in
  convertTextToSpeech env this text voiceId =
  match text_to_speech env req with
  | inl e => ([req], snd (@eleven_catch ElevenLabsResponse e))
  | inr data =>
      match data with
      | Some body =>
          if (size body =? 0)%nat then ([req], inl (Error msg_eleven_generic))
          else
            let audioBlob := mkBlob (blob_bytes body) (js "audio/mpeg") in
            ([req], inr (mkElevenLabsResponse (createObjectURL env audioBlob) audioBlob))
      | None => ([req], inl (Error msg_eleven_generic))
      end
  end.
Proof.
  intros Hkey Htext req. unfold convertTextToSpeech. rewrite Hkey, Htext. cbn [negb].
  fold req. unfold axios_post, bind, try_catch.
  destruct (text_to_speech env req) as [e|[body|]].
  - destruct (eleven_catch_message ElevenLabsResponse e) as (m & Hc & _).
    rewrite Hc. reflexivity.
  - cbn [no_audio]. destruct (size body =? 0)%nat; [reflexivity|].
    unfold newBlob. cbn [flat_map]. rewrite app_nil_r. reflexivity.
  - reflexivity.
Qed.

(** What [convertTextToSpeech] makes of the service's answer: a body with
    bytes becomes a blob of the same bytes typed audio/mpeg, whatever type
    the body had, with the URL made for that blob; a missing or zero-byte
    body is rejected with the generic "Failed to convert text to speech"
    message (the "Empty audio response received" error is thrown inside the
    [try] and replaced by its [catch]). One request is issued either way. *)
Theorem speech_answer (text voiceId : jsstring) (data : option Blob) :
  truthy (elevenLabsApiKey this) = true ->
  no_text text = false ->
  text_to_speech env (speech_request this voiceId text) = inr data ->
  requests (convertTextToSpeech env this text voiceId)
  = [speech_request this voiceId text] /\
  match data with
  | Some body =>
      (size body <> 0%nat ->
       exists r,
         outcome (convertTextToSpeech env this text voiceId) = inr r /\
         blob_bytes (audioBlob r) = blob_bytes body /\
         blob_type (audioBlob r) = js "audio/mpeg" /\
         audioUrl r = createObjectURL env (audioBlob r)) /\
      (size body = 0%nat ->
       outcome (convertTextToSpeech env this text voiceId)
       = inl (Error msg_eleven_generic))
  | None =>
      outcome (convertTextToSpeech env this text voiceId)
      = inl (Error msg_eleven_generic)
  end.
Proof.
  intros Hkey Htext Hans.
  rewrite (speech_run text voiceId Hkey Htext). cbv zeta. rewrite Hans.
  destruct data as [body|]; [|split; reflexivity].
  destruct (size body =? 0)%nat eqn:Hsize.
  - apply Nat.eqb_eq in Hsize. split; [reflexivity|]. split; [contradiction | reflexivity].
  - apply Nat.eqb_neq in Hsize. split; [reflexivity|]. split; [|contradiction].
    intros _. eexists. split; [reflexivity|]. repeat split.
Qed.

(** Whatever the service does, [convertTextToSpeech] issues at most one
    request, and a rejection is an [Error] with one of seven messages; it is
    never the raw [AxiosError] and never "Empty audio response received". *)
Theorem speech_rejections (text voiceId : jsstring) :
  (length (requests (convertTextToSpeech env this text voiceId)) <= 1)%nat /\
  forall e,
    outcome (convertTextToSpeech env this text voiceId) = inl e ->
    exists m, e = Error m /\ eleven_message m /\ m <> msg_empty_audio.
Proof.
  assert (Hm : forall m, eleven_message m -> m <> msg_empty_audio).
  { intros m [ -> | [ -> | [ -> | [ -> | [ -> | [ -> | -> ] ] ] ] ] ]; discriminate. }
  destruct (truthy (elevenLabsApiKey this)) eqn:Hkey.
  - destruct (no_text text) eqn:Htext.
    + unfold convertTextToSpeech. rewrite Hkey, Htext. cbn. split; [lia|].
      intros e H. injection H as <-. eexists. split; [reflexivity|].
      split; [unfold eleven_message; tauto | discriminate].
    + rewrite (speech_run text voiceId Hkey Htext). cbv zeta.
      destruct (text_to_speech env _) as [e0|[body|]].
      * destruct (eleven_catch_message ElevenLabsResponse e0) as (m & Hc & Hcases).
        rewrite Hc. cbn. split; [lia|]. intros e H. injection H as <-.
        assert (He : eleven_message m) by (unfold eleven_message; tauto).
        exists m. split; [reflexivity|]. split; [exact He | exact (Hm m He)].
      * destruct (size body =? 0)%nat; cbn; (split; [lia|]); intros e H;
          [|discriminate H].
        injection H as <-. eexists. split; [reflexivity|].
        split; [unfold eleven_message; tauto | discriminate].
      * cbn. split; [lia|]. intros e H. injection H as <-.
        eexists. split; [reflexivity|].
        split; [unfold eleven_message; tauto | discriminate].
  - unfold convertTextToSpeech. rewrite Hkey. cbn. split; [lia|].
    intros e H. injection H as <-. eexists. split; [reflexivity|].
    split; [unfold eleven_message; tauto | discriminate].
Qed.

(** A blank reply of the model never reaches the synthesis endpoint: when
    the first choice's content is empty or white space, [handleProcessAudio]
    issues the transcription and the chat request only, keeps the reply and
    the transcription on the page, and reports "No text provided for speech
    synthesis". *)
Theorem blank_reply_is_not_synthesized (audioBlob : Blob) (heard : jsstring)
    (choice : Choice) (others : list Choice) (u : option Usage) :
  truthy (groqApiKey this) = true ->
  elevenLabsApiKey this <> [] ->
  transcriptions env (transcription_request this (convertBlobToWav env audioBlob))
    = inr (mkTranscriptionData (Some heard)) ->
  no_speech (Some heard) = false ->
  chat_completions env (chat_request this heard)
    = inr (mkChatData (Some (choice :: others)) u) ->
  forallb isWhiteSpace (message_content choice) = true ->
  handleProcessAudio env this (Some audioBlob)
  = ([transcription_request this (convertBlobToWav env audioBlob);
      chat_request this heard],
     Some (mkPageState (message_content choice) heard None (Some msg_no_text))).
Proof.
  intros Hg He Ht Hs Hc Hblank.
  unfold handleProcessAudio.
  rewrite (transcribe_run env this audioBlob Hg). cbv zeta.
  rewrite Ht. cbn [td_text]. rewrite Hs, Hc. cbn [cd_choices text transcribedText].
  destruct (speech_guards (message_content choice) default_voiceId) as [_ Hguard].
  rewrite (Hguard He Hblank). reflexivity.
Qed.

(** The Regenerate button never reports a failure: the page's [error],
    reply and transcription are left as they were whatever happens, and
    when the synthesis is rejected the whole page state, the previous audio
    included, is unchanged. *)
Theorem regenerate_failure_is_silent (page : PageState) :
  let after := snd (regenerateAudio env this page) in
  error after = error page /\
  responseText after = responseText page /\
  pageTranscribedText after = pageTranscribedText page /\
  fst (regenerateAudio env this page)
  = requests (convertTextToSpeech env this (responseText page) default_voiceId) /\
  match outcome (convertTextToSpeech env this (responseText page) default_voiceId) with
  | inl _ => after = page
  | inr r => audioResponse after = Some r
  end.
Proof.
  cbv zeta. unfold regenerateAudio, requests, outcome.
  destruct (convertTextToSpeech env this (responseText page) default_voiceId) as [t [e|r]];
    repeat split.
Qed.

End SpeechOutcomes.

Lemma speech_guards_witness :
  Api.convertTextToSpeech (Api.examplePlatform None None None)
    (Api.setApiKeys (js "gsk") []) (js "Hi there!") Api.default_voiceId
  = ([], inl (Api.Error Api.msg_eleven_key)) /\
  Api.convertTextToSpeech (Api.examplePlatform None None None)
    Api.exampleApi (js "   ") Api.default_voiceId
  = ([], inl (Api.Error Api.msg_no_text)).
Proof.
  split.
  - apply (speech_guards (Api.examplePlatform None None None)
             (Api.setApiKeys (js "gsk") []) (js "Hi there!") Api.default_voiceId).
    reflexivity.
  - apply (speech_guards (Api.examplePlatform None None None)
             Api.exampleApi (js "   ") Api.default_voiceId).
    + discriminate.
    + reflexivity.
Defined.

Lemma speech_answer_witness :
  Api.outcome
    (Api.convertTextToSpeech (Api.examplePlatform None None (Some (mkBlob [] [])))
       Api.exampleApi (js "Hi there!") Api.default_voiceId)
  = inl (Api.Error Api.msg_eleven_generic).
Proof.
  destruct (speech_answer (Api.examplePlatform None None (Some (mkBlob [] [])))
              Api.exampleApi (js "Hi there!") Api.default_voiceId (Some (mkBlob [] [])))
    as [_ [_ Hempty]].
  - reflexivity.
  - reflexivity.
  - reflexivity.
  - apply Hempty. reflexivity.
Defined.

Lemma blank_reply_is_not_synthesized_witness :
  let env := Api.examplePlatform (Some (js "Hello")) (Some [Api.mkChoice (js "  ")])
               (Some Api.someRecording) in
  existsb Api.is_speech_request
    (fst (Api.handleProcessAudio env Api.exampleApi (Some Api.someRecording))) = false.
Proof.
  cbv zeta.
  rewrite (blank_reply_is_not_synthesized
             (Api.examplePlatform (Some (js "Hello")) (Some [Api.mkChoice (js "  ")])
                (Some Api.someRecording))
             Api.exampleApi Api.someRecording (js "Hello")
             (Api.mkChoice (js "  ")) [] None).
  - reflexivity.
  - reflexivity.
  - discriminate.
  - reflexivity.
  - reflexivity.
  - reflexivity.
  - reflexivity.
Defined.

(** ** The WAV container: layout and clipping *)

Section WavLayout.

Import Wav Container.

Lemma le_value_le_bytes_small (n : nat) (v : Z) :
  0 <= v < 2 ^ (8 * Z.of_nat n) -> le_value (le_bytes n v) = v.
Proof. intros H. rewrite le_value_le_bytes. now apply Z.mod_small. Qed.

(** The layout of the container for a recording under the format's 4 GiB
    limit: the four chunk tags at their offsets, a 16-byte format chunk, a
    RIFF size of the whole file less the first 8 bytes, and a data size
    equal to the bytes that follow the header. *)
Theorem wav_container_layout (buffer : AudioBuffer) :
  well_formed buffer ->
  36 + Z.of_nat (ab_length buffer) * 2 < 2 ^ 32 ->
  exists wav,
    audioBufferToWav buffer = Some wav /\
    riffId (blob_bytes wav) = js "RIFF" /\
    waveId (blob_bytes wav) = js "WAVE" /\
    fmtId (blob_bytes wav) = js "fmt " /\
    fmtSize (blob_bytes wav) = 16 /\
    dataId (blob_bytes wav) = js "data" /\
    riffSize (blob_bytes wav) = Z.of_nat (size wav) - 8 /\
    dataSize (blob_bytes wav) = Z.of_nat (length (wav_data (blob_bytes wav))).
Proof.
  intros [Hne _] Hsmall.
  destruct (getChannelData buffer 0) as [ch0|] eqn:Hch.
  2:{ unfold getChannelData in Hch. destruct (ab_channels buffer); [contradiction|discriminate]. }
  eexists. split; [exact (audioBufferToWav_bytes buffer ch0 Hch)|].
  cbn [blob_bytes]. unfold size. cbn [blob_bytes].
  rewrite wav_data_of_bytes, length_app, length_header_bytes, length_samples,
    length_map, length_seq.
  set (L := ab_length buffer) in *.
  set (data := flat_map encodeSample (map (sampleAt ch0) (seq 0 L))).
  assert (Hriff : le_value (le_bytes 4 (36 + Z.of_nat L * 2)) = 36 + Z.of_nat L * 2).
  { apply le_value_le_bytes_small. change (2 ^ (8 * Z.of_nat 4)) with (2 ^ 32). lia. }
  assert (Hdata : le_value (le_bytes 4 (Z.of_nat L * 2)) = Z.of_nat L * 2).
  { apply le_value_le_bytes_small. change (2 ^ (8 * Z.of_nat 4)) with (2 ^ 32). lia. }
  unfold riffId, waveId, fmtId, dataId, chunkId, riffSize, fmtSize, dataSize,
    field, header_bytes.
  rewrite !le_bytes_succ in *. change (le_bytes 0 _) with (@nil Z) in *.
  cbn [app skipn firstn low_bytes map js] in *.
  repeat split.
  - transitivity (36 + Z.of_nat L * 2); [exact Hriff | lia].
  - transitivity (Z.of_nat L * 2); [exact Hdata | lia].
Qed.

Lemma SFcompare_antisym (a b : spec_float) :
  SFcompare b a = option_map CompOpp (SFcompare a b).
Proof.
  destruct a as [s|s| |s m e], b as [s'|s'| |s' m' e']; cbn [SFcompare option_map];
    try reflexivity; try (destruct s; reflexivity); try (destruct s'; reflexivity);
    try (destruct s, s'; reflexivity).
  destruct s, s'; cbn [CompOpp]; try reflexivity;
    rewrite (Z.compare_antisym e e'); destruct (e ?= e'); cbn [CompOpp]; try reflexivity.
  - rewrite !Pos.compare_cont_antisym. reflexivity.
  - rewrite Pos.compare_cont_antisym. reflexivity.
Qed.

Lemma SFcompare_refl (a : spec_float) : a <> S754_nan -> SFcompare a a = Some Eq.
Proof.
  destruct a as [s|s| |s m e]; cbn; intros H; try reflexivity; try contradiction.
  - destruct s; reflexivity.
  - rewrite Z.compare_refl, Pos.compare_cont_refl. destruct s; reflexivity.
Qed.

Lemma SFcompare_nan_r (a : spec_float) : SFcompare a S754_nan = None.
Proof. destruct a; reflexivity. Qed.

(** Two numbers that compare are not NaN, and [<=] excludes the converse
    [<]. *)
Lemma leb_true (a b : float) :
  PrimFloat.leb a b = true ->
  PrimFloat.is_nan a = false /\ PrimFloat.is_nan b = false /\
  PrimFloat.ltb b a = false.
Proof.
  intros H. unfold PrimFloat.is_nan.
  rewrite (FloatAxioms.leb_spec a b) in H.
  rewrite (FloatAxioms.ltb_spec b a), (FloatAxioms.eqb_spec a a), (FloatAxioms.eqb_spec b b).
  unfold SFleb in H. unfold SFltb, SFeqb.
  assert (Ha : Prim2SF a <> S754_nan).
  { intros E. rewrite E in H. discriminate H. }
  assert (Hb : Prim2SF b <> S754_nan).
  { intros E. rewrite E, SFcompare_nan_r in H. discriminate H. }
  rewrite (SFcompare_refl _ Ha), (SFcompare_refl _ Hb).
  rewrite (SFcompare_antisym (Prim2SF a) (Prim2SF b)).
  destruct (SFcompare (Prim2SF a) (Prim2SF b)) as [[| |]|]; try discriminate H;
    repeat split.
Qed.

(** At or below -1 is below 1. *)
Lemma below_minus_one (x : float) :
  PrimFloat.leb x (-1)%float = true -> PrimFloat.ltb x 1%float = true.
Proof.
  rewrite (FloatAxioms.leb_spec x (-1)%float), (FloatAxioms.ltb_spec x 1%float). unfold SFleb, SFltb.
  change (Prim2SF (-1)%float) with (S754_finite true 4503599627370496 (-52)).
  change (Prim2SF 1%float) with (S754_finite false 4503599627370496 (-52)).
  destruct (Prim2SF x) as [s|s| |s m e]; cbn [SFcompare].
  - destruct s; discriminate.
  - destruct s; [reflexivity | discriminate].
  - discriminate.
  - destruct s; [reflexivity | discriminate].
Qed.

(** Samples outside [-1, 1] are clipped, not wrapped: a sample of 1 or more
    is stored as 32767, a sample of -1 or less as -32767, and a NaN as 0. *)
Theorem samples_are_clipped (x : float) :
  (PrimFloat.leb 1%float x = true -> int16 (encodeSample x) = 32767) /\
  (PrimFloat.leb x (-1)%float = true -> int16 (encodeSample x) = -32767) /\
  (PrimFloat.is_nan x = true -> int16 (encodeSample x) = 0).
Proof.
  unfold encodeSample, scaledSample.
  assert (H1 : PrimFloat.is_nan 1%float = false) by reflexivity.
  split; [|split].
  - intros H. destruct (leb_true _ _ H) as (_ & Hx & Hlt).
    unfold Math_min. rewrite H1, Hx, Hlt. reflexivity.
  - intros H. destruct (leb_true _ _ H) as (Hx & _ & Hlt).
    pose proof (below_minus_one x H) as Hlt1.
    unfold Math_min. rewrite H1, Hx, Hlt1. cbn [orb].
    unfold Math_max. rewrite Hx, Hlt.
    replace (PrimFloat.is_nan (-1)%float) with false by reflexivity.
    reflexivity.
  - intros H. unfold Math_min. rewrite H1, H. reflexivity.
Qed.

End WavLayout.

Lemma wav_container_layout_witness :
  exists wav,
    Wav.audioBufferToWav Wav.stereoBuffer = Some wav /\
    Container.riffId (blob_bytes wav) = js "RIFF" /\
    Container.riffSize (blob_bytes wav) = Z.of_nat (size wav) - 8.
Proof.
  destruct (wav_container_layout Wav.stereoBuffer)
    as [wav [H [Hid [_ [_ [_ [_ [Hriff _]]]]]]]].
  - split; [discriminate | repeat constructor].
  - reflexivity.
  - exists wav. split; [exact H|]. split; [exact Hid | exact Hriff].
Defined.

Lemma samples_are_clipped_witness :
  Container.int16 (Wav.encodeSample 2.5%float) = 32767 /\
  Container.int16 (Wav.encodeSample (-7)%float) = -32767 /\
  Container.int16 (Wav.encodeSample PrimFloat.nan) = 0.
Proof.
  destruct (samples_are_clipped 2.5%float) as [Hhigh _].
  destruct (samples_are_clipped (-7)%float) as [_ [Hlow _]].
  destruct (samples_are_clipped PrimFloat.nan) as [_ [_ Hnan]].
  split; [apply Hhigh; reflexivity|].
  split; [apply Hlow; reflexivity | apply Hnan; reflexivity].
Defined.

(** ** The recorder hook: failures, clearing and the end of a session *)

Ltac hook_fields s :=
  destruct s as [rec pau time blob mr stream chunks timer live ints next].

Ltac hook_cbn := cbn -[Nat.ltb Recorder.remove_handle] in *.

Ltac hook_delta :=
  unfold Recorder.startRecording, Recorder.stopRecording, Recorder.pauseRecording,
    Recorder.resumeRecording, Recorder.clearRecording, Recorder.tick,
    Recorder.mediaRecorder_stop, Recorder.finish, Recorder.ondataavailable,
    Recorder.onstop, Recorder.onerror, Recorder.stopTimer, Recorder.startTimer in *.

Section RecorderSessions.

Import Recorder Page.

Variable env : Browser.

(** A start that throws. Before the grant (no support, [getUserMedia]
    rejected) it leaves the hook exactly as it was. After the grant (the
    [MediaRecorder] constructor or [start(1000)] throws) the [catch]
    releases nothing: the granted stream stays live and held by
    [streamRef], the chunk buffer is empty, and no session or timer is
    started. Either way the page shows one fixed message, "Failed to start
    recording. Please check your microphone permissions.", not the message
    the hook threw. *)
Theorem failed_start_effects (r : start_outcome) (s : Hook) (e : JsError) :
  snd (startRecording env r s) = Some e ->
  let s' := fst (startRecording env r s) in
  handleStartRecording env r s = (s', Some msg_start_failed) /\
  isRecording s' = isRecording s /\ isPaused s' = isPaused s /\
  recordingTime s' = recordingTime s /\ audioBlob s' = audioBlob s /\
  timerRef s' = timerRef s /\ intervals s' = intervals s /\
  (if late_failure (StartRecording r) && isSupported env
   then liveStreams s' = nextHandle s :: liveStreams s /\
        streamRef s' = Some (nextHandle s) /\ chunksRef s' = []
   else s' = s).
Proof.
  unfold handleStartRecording, startRecording.
  destruct (isSupported env); cbn [negb].
  - destruct r as [|name message|name message|name message]; cbn [fst snd late_failure andb].
    + discriminate.
    + intros _. repeat split.
    + intros _. hook_fields s. repeat split.
    + intros _. hook_fields s. repeat split.
  - intros _. rewrite andb_false_r. repeat split.
Qed.

(** In every sequence of events, gated or not, the chunk buffer never holds
    a chunk of size zero. *)
Theorem chunk_buffer_has_no_empty_chunk (events : list event) :
  Forall (fun c => nonempty c = true) (chunksRef (run env initial events)).
Proof.
  assert (Hstep : forall s e,
             Forall (fun c => nonempty c = true) (chunksRef s) ->
             Forall (fun c => nonempty c = true) (chunksRef (step env s e))).
  { intros s e. hook_fields s. hook_cbn. intros Hs.
    destruct e as [r|final| | | | |data|final| ]; hook_cbn; hook_delta; hook_cbn.
    - destruct (isSupported env); hook_cbn; [|exact Hs].
      destruct r; hook_cbn; try exact Hs; constructor.
    - destruct mr as [[st m]|]; hook_cbn; [|exact Hs].
      destruct rec; hook_cbn; [|exact Hs].
      destruct st; hook_cbn;
        try (destruct timer; exact Hs);
        destruct (0 <? size final)%nat eqn:Hf; hook_cbn;
        destruct stream, timer; hook_cbn;
        try exact Hs; apply Forall_app; split; auto.
    - destruct mr as [[st m]|]; hook_cbn; [|exact Hs].
      destruct (rec && negb pau); [|exact Hs].
      destruct st; hook_cbn; try exact Hs. destruct timer; exact Hs.
    - destruct mr as [[st m]|]; hook_cbn; [|exact Hs].
      destruct (rec && pau); [|exact Hs].
      destruct st; hook_cbn; exact Hs.
    - constructor.
    - exact Hs.
    - destruct mr as [[[] m]|]; hook_cbn; try exact Hs;
        destruct (0 <? size data)%nat eqn:Hd; hook_cbn; try exact Hs;
        apply Forall_app; split; auto.
    - destruct mr as [[[] m]|]; hook_cbn; try exact Hs;
        destruct timer; hook_cbn;
        destruct (0 <? size final)%nat eqn:Hf; hook_cbn;
        destruct stream; hook_cbn; try exact Hs; apply Forall_app; split; auto.
    - exact Hs. }
  assert (Hrun : forall evs s,
             Forall (fun c => nonempty c = true) (chunksRef s) ->
             Forall (fun c => nonempty c = true) (chunksRef (run env s evs))).
  { induction evs as [|e evs IH]; intros s Hs; [exact Hs|].
    cbn [run fold_left]. apply IH, Hstep, Hs. }
  apply Hrun. constructor.
Qed.

(** Stopping is idempotent: a second stop, whatever data the platform
    would deliver with it, changes nothing. *)
Theorem stop_twice_is_stop_once (s : Hook) (final final' : Blob) :
  stopRecording final' (stopRecording final s) = stopRecording final s.
Proof.
  hook_fields s. unfold stopRecording at 2. hook_cbn.
  destruct mr as [[st m]|]; [|reflexivity].
  destruct rec; [|reflexivity].
  unfold stopRecording. hook_delta. hook_cbn.
  destruct st; hook_cbn;
    try (destruct timer; reflexivity);
    destruct (0 <? size final)%nat; hook_cbn; destruct stream, timer; reflexivity.
Qed.

(** What the events inside a session leave alone: the streams, the stream
    ref and the artifact of an earlier session. *)
Lemma session_frame (events : list event) :
  forall s,
    forallb within_session events = true ->
    liveStreams (run env s events) = liveStreams s /\
    streamRef (run env s events) = streamRef s /\
    audioBlob (run env s events) = audioBlob s.
Proof.
  induction events as [|e events IH]; intros s Hin; [repeat split|].
  cbn [forallb] in Hin. apply andb_true_iff in Hin as [He Hin].
  cbn [run fold_left]. destruct (IH (step env s e) Hin) as (H1 & H2 & H3).
  fold (run env (step env s e) events). rewrite H1, H2, H3. clear IH H1 H2 H3.
  hook_fields s.
  destruct e; try discriminate He; hook_cbn; hook_delta; hook_cbn.
  - destruct mr as [[st m]|]; hook_cbn; [|repeat split].
    destruct (rec && negb pau); [|repeat split].
    destruct st; hook_cbn; try (repeat split; fail). destruct timer; repeat split.
  - destruct mr as [[st m]|]; hook_cbn; [|repeat split].
    destruct (rec && pau); [|repeat split].
    destruct st; repeat split.
  - repeat split.
  - destruct mr as [[[] m]|]; hook_cbn; try (repeat split; fail);
      destruct (0 <? size data)%nat; repeat split.
Qed.

(** The artifact a stop makes of a session that is open. *)
Lemma stop_artifact (s : Hook) (st : RecordingState) (m : jsstring) (final : Blob) :
  mediaRecorderRef s = Some (mkMediaRecorder st m) -> st <> inactive ->
  isRecording s = true ->
  audioBlob (stopRecording final s)
  = Some (newBlob (chunksRef s ++ filter nonempty [final])
            (or_else m (js "audio/webm"))).
Proof.
  intros Hmr Hst Hrec. hook_fields s. hook_cbn. subst mr rec.
  unfold stopRecording. hook_delta. hook_cbn. unfold nonempty.
  destruct st; [contradiction| |];
    destruct (0 <? size final)%nat; hook_cbn; rewrite ?app_nil_r;
    destruct stream, timer; reflexivity.
Qed.

(** Clearing in the middle of a session does not end it: the recorder goes
    on and the stream stays live, but the chunks gathered so far are gone,
    so the artifact made at stop holds only what arrived after the clear. *)
Theorem clear_in_session_discards_the_chunks (s0 : Hook) (before after : list event)
    (final : Blob) :
  isSupported env = true ->
  forallb within_session before = true ->
  forallb within_session after = true ->
  let s := run env s0 (StartRecording Granted :: before ++ ClearRecording :: after) in
  isRecording s = true /\
  liveStreams s = nextHandle s0 :: liveStreams s0 /\
  audioBlob (step env s (StopRecording final))
  = Some (newBlob (filter nonempty (arrivals after ++ [final]))
            (or_else (negotiateMimeType (isTypeSupported env)) (js "audio/webm"))).
Proof.
  intros Hsup Hb Ha s.
  destruct (startRecording_granted env s0 Hsup) as (_ & Hlive & _ & _ & Hrec & _ & Hmr).
  set (s1 := fst (startRecording env Granted s0)) in *.
  destruct (session_chunks env _ before s1 recording Hb Hmr ltac:(discriminate))
    as (_ & Hrec2 & st2 & Hmr2 & Hst2).
  destruct (session_frame before s1 Hb) as (Hlive2 & _ & _).
  set (s2 := run env s1 before) in *.
  set (s3 := step env s2 ClearRecording).
  assert (H3 : mediaRecorderRef s3 = Some (mkMediaRecorder st2 (negotiateMimeType (isTypeSupported env)))
               /\ isRecording s3 = isRecording s2 /\ liveStreams s3 = liveStreams s2
               /\ chunksRef s3 = []).
  { unfold s3. clearbody s2. hook_fields s2. hook_cbn. subst mr. repeat split. }
  destruct H3 as (Hmr3 & Hrec3 & Hlive3 & Hch3).
  destruct (session_chunks env _ after s3 st2 Ha Hmr3 Hst2)
    as (Hch4 & Hrec4 & st4 & Hmr4 & Hst4).
  destruct (session_frame after s3 Ha) as (Hlive4 & _ & _).
  assert (Hs : s = run env s3 after).
  { unfold s, s3, s2, s1, run. cbn [fold_left step]. now rewrite fold_left_app. }
  rewrite Hs. split; [congruence|]. split; [congruence|].
  cbn [step]. rewrite (stop_artifact _ st4 _ final Hmr4 Hst4) by congruence.
  rewrite Hch4, Hch3. cbn [app]. now rewrite filter_app.
Qed.

(** A failure of the recorder ends the session as a stop does, in a
    careful use of the hook with no throw after a grant: the flags are
    cleared, the timer is stopped, the stream is released, and the chunks
    gathered so far, with the data delivered at the failure, become the
    artifact. *)
Theorem recorder_failure_ends_the_session (events : list event) (final : Blob) :
  orderly env initial false events = true ->
  existsb late_failure events = false ->
  isRecording (run env initial events) = true ->
  let s := run env initial events in
  let s' := step env s (RecorderError final) in
  isRecording s' = false /\ isPaused s' = false /\
  liveStreams s' = [] /\ intervals s' = [] /\
  option_map blob_bytes (audioBlob s')
  = Some (flat_map blob_bytes (chunksRef s ++ filter nonempty [final])).
Proof.
  intros Hok Hlate Hrec s s'.
  pose proof (run_timer env events initial false (initial_timer_consistent)
                ltac:(discriminate) Hok) as Ht.
  pose proof (run_stream env events initial false (initial_timer_consistent)
                (initial_stream_consistent) ltac:(discriminate) Hok Hlate) as Hs.
  fold s in Ht, Hs, Hrec. subst s'. clearbody s.
  hook_fields s. unfold timer_consistent in Ht. unfold stream_consistent in Hs.
  hook_cbn. subst rec.
  destruct Ht as (-> & Hflags). destruct Hs as (-> & _). unfold nonempty.
  destruct pau; destruct Hflags as ([m Hm] & Ht); subst mr; hook_cbn; hook_delta; hook_cbn;
    destruct timer; try congruence; hook_cbn;
    destruct (0 <? size final)%nat; hook_cbn;
    destruct stream; hook_cbn; rewrite ?remove_handle_only, ?app_nil_r;
    repeat split.
Qed.

(** The elapsed time is never negative, whatever the events. *)
Lemma elapsed_time_nonnegative (events : list event) :
  forall s, 0 <= recordingTime s -> 0 <= recordingTime (run env s events).
Proof.
  induction events as [|e events IH]; intros s Hs; [exact Hs|].
  cbn [run fold_left]. apply IH. clear IH.
  hook_fields s. hook_cbn.
  destruct e as [r|final| | | | |data|final| ]; hook_cbn; hook_delta; hook_cbn.
  - destruct (isSupported env); hook_cbn; [|exact Hs]. destruct r; hook_cbn; try exact Hs; lia.
  - destruct mr as [[st m]|]; hook_cbn; [|exact Hs].
    destruct rec; hook_cbn; [|exact Hs].
    destruct st; hook_cbn; try (destruct timer; exact Hs);
      destruct (0 <? size final)%nat; hook_cbn; destruct stream, timer; exact Hs.
  - destruct mr as [[st m]|]; hook_cbn; [|exact Hs].
    destruct (rec && negb pau); [|exact Hs].
    destruct st; hook_cbn; try exact Hs. destruct timer; exact Hs.
  - destruct mr as [[st m]|]; hook_cbn; [|exact Hs].
    destruct (rec && pau); [|exact Hs]. destruct st; exact Hs.
  - lia.
  - lia.
  - destruct mr as [[[] m]|]; hook_cbn; try exact Hs;
      destruct (0 <? size data)%nat; exact Hs.
  - destruct mr as [[[] m]|]; hook_cbn; try exact Hs;
      destruct timer; hook_cbn; destruct (0 <? size final)%nat; hook_cbn;
      destruct stream; exact Hs.
  - exact Hs.
Qed.

End RecorderSessions.

Lemma failed_start_effects_witness :
  Page.handleStartRecording Recorder.exampleBrowser
    (Recorder.Rejected (js "NotAllowedError") (js "Permission denied")) Recorder.initial
  = (Recorder.initial, Some Page.msg_start_failed) /\
  Recorder.liveStreams
    (fst (Recorder.startRecording Recorder.exampleBrowser
            (Recorder.StartThrows (js "NotSupportedError") (js "no tracks"))
            Recorder.initial)) = [0%nat].
Proof.
  destruct (failed_start_effects Recorder.exampleBrowser
              (Recorder.Rejected (js "NotAllowedError") (js "Permission denied"))
              Recorder.initial (Recorder.newError Recorder.msg_denied)) as [H _].
  - reflexivity.
  - destruct (failed_start_effects Recorder.exampleBrowser
                (Recorder.StartThrows (js "NotSupportedError") (js "no tracks"))
                Recorder.initial (Recorder.newError Recorder.msg_not_supported))
      as (_ & _ & _ & _ & _ & _ & _ & Hlive & _).
    + reflexivity.
    + split; [exact H | exact Hlive].
Defined.

Lemma clear_in_session_discards_the_chunks_witness :
  let s := Recorder.run Recorder.exampleBrowser Recorder.initial
             (Recorder.StartRecording Recorder.Granted
              :: [Recorder.DataAvailable (Recorder.chunk [1; 2])]
                 ++ Recorder.ClearRecording
                    :: [Recorder.DataAvailable (Recorder.chunk [3])]) in
  Recorder.audioBlob
    (Recorder.step Recorder.exampleBrowser s (Recorder.StopRecording (Recorder.chunk [4])))
  = Some (newBlob [Recorder.chunk [3]; Recorder.chunk [4]]
            (js "audio/webm;codecs=opus")).
Proof.
  cbv zeta.
  destruct (clear_in_session_discards_the_chunks Recorder.exampleBrowser Recorder.initial
              [Recorder.DataAvailable (Recorder.chunk [1; 2])]
              [Recorder.DataAvailable (Recorder.chunk [3])] (Recorder.chunk [4]))
    as (_ & _ & H).
  - reflexivity.
  - reflexivity.
  - reflexivity.
  - exact H.
Defined.

Lemma recorder_failure_ends_the_session_witness :
  let s := Recorder.run Recorder.exampleBrowser Recorder.initial
             [Recorder.CallStartRecording; Recorder.StartRecording Recorder.Granted;
              Recorder.DataAvailable (Recorder.chunk [1; 2])] in
  Recorder.liveStreams
    (Recorder.step Recorder.exampleBrowser s (Recorder.RecorderError (Recorder.chunk [3])))
  = [] /\
  Recorder.intervals
    (Recorder.step Recorder.exampleBrowser s (Recorder.RecorderError (Recorder.chunk [3])))
  = [].
Proof.
  cbv zeta.
  destruct (recorder_failure_ends_the_session Recorder.exampleBrowser
              [Recorder.CallStartRecording; Recorder.StartRecording Recorder.Granted;
               Recorder.DataAvailable (Recorder.chunk [1; 2])] (Recorder.chunk [3]))
    as (_ & _ & Hlive & Hints & _).
  - reflexivity.
  - reflexivity.
  - reflexivity.
  - split; [exact Hlive | exact Hints].
Defined.

(** ** The elapsed time as the page shows it *)

Section TimeDisplay.

Import Recorder Page.

Lemma jsstring_eqb_eq (a b : jsstring) : jsstring_eqb a b = true <-> a = b.
Proof.
  revert b. induction a as [|x a IH]; destruct b as [|y b]; simpl; split; intros H;
    try reflexivity; try discriminate.
  - apply andb_true_iff in H as [Hx Hab]. apply Z.eqb_eq in Hx. apply IH in Hab. congruence.
  - injection H as -> ->. rewrite Z.eqb_refl. now apply IH.
Qed.

(** The seconds field: always two digits. *)
Lemma two_digits (k : Z) :
  0 <= k < 60 ->
  padStart (toString k) 2 (js "0") = [digit (k / 10); digit (k mod 10)].
Proof.
  intros Hk.
  assert (Hall : forallb
                   (fun n => jsstring_eqb
                               (padStart (toString (Z.of_nat n)) 2 (js "0"))
                               [digit (Z.of_nat n / 10); digit (Z.of_nat n mod 10)])
                   (seq 0 60) = true) by (vm_compute; reflexivity).
  rewrite forallb_forall in Hall.
  specialize (Hall (Z.to_nat k)). rewrite Z2Nat.id in Hall by lia.
  apply jsstring_eqb_eq, Hall, in_seq. lia.
Qed.

(** [formatTime] on an elapsed time: the minutes in decimal, not wrapped
    into hours, a colon, and the seconds on exactly two digits. *)
Lemma formatTime_shape (seconds : Z) :
  0 <= seconds ->
  formatTime seconds
  = toString (seconds / 60)
    ++ js ":" ++ [digit (seconds mod 60 / 10); digit (seconds mod 60 mod 10)].
Proof.
  intros H. unfold formatTime. cbv zeta.
  rewrite Z.rem_mod_nonneg by lia.
  rewrite two_digits by (apply Z.mod_pos_bound; lia). reflexivity.
Qed.

Lemma js_inj (a b : string) : js a = js b -> a = b.
Proof.
  unfold js. intros H.
  rewrite <- (string_of_list_ascii_of_string a), <- (string_of_list_ascii_of_string b).
  f_equal. revert H. generalize (list_ascii_of_string a), (list_ascii_of_string b).
  intros la. induction la as [|x la IH]; intros [|y lb]; simpl; intros H;
    try reflexivity; try discriminate.
  injection H as Hxy Hl. f_equal; [|now apply IH].
  apply N2Z.inj in Hxy.
  rewrite <- (ascii_N_embedding x), <- (ascii_N_embedding y). now rewrite Hxy.
Qed.

Lemma toString_inj (a b : Z) : toString a = toString b -> a = b.
Proof.
  unfold toString. intros H. apply js_inj in H.
  assert (Hnn : forall z, Z.to_int z <> Decimal.Pos Decimal.Nil
                          /\ Z.to_int z <> Decimal.Neg Decimal.Nil).
  { intros [|p|p]; cbn; split; try discriminate; intros E; injection E as E;
      exact (Unsigned.to_uint_nonnil p E). }
  apply to_int_inj.
  destruct (Hnn a) as [Ha1 Ha2]. destruct (Hnn b) as [Hb1 Hb2].
  pose proof (NilZero.isi _ Ha1 Ha2) as Ea. pose proof (NilZero.isi _ Hb1 Hb2) as Eb.
  rewrite H in Ea. congruence.
Qed.

(** The elapsed time as the page shows it, in every reachable state of the
    hook: it is never negative, it reads minutes, a colon and two digits of
    seconds, and two different elapsed times never read the same. *)
Theorem elapsed_time_display (env : Browser) (events events' : list event) :
  let t := recordingTime (run env initial events) in
  let t' := recordingTime (run env initial events') in
  0 <= t /\
  formatTime t
  = toString (t / 60) ++ js ":" ++ [digit (t mod 60 / 10); digit (t mod 60 mod 10)] /\
  (formatTime t = formatTime t' -> t = t').
Proof.
  intros t t'.
  assert (Ht : 0 <= t) by (apply elapsed_time_nonnegative; cbn; lia).
  assert (Ht' : 0 <= t') by (apply elapsed_time_nonnegative; cbn; lia).
  split; [exact Ht|]. split; [exact (formatTime_shape t Ht)|].
  rewrite (formatTime_shape t Ht), (formatTime_shape t' Ht').
  clearbody t t'. intros H.
  rewrite !app_assoc in H.
  change [digit (t mod 60 / 10); digit (t mod 60 mod 10)]
    with ([digit (t mod 60 / 10)] ++ [digit (t mod 60 mod 10)]) in H.
  change [digit (t' mod 60 / 10); digit (t' mod 60 mod 10)]
    with ([digit (t' mod 60 / 10)] ++ [digit (t' mod 60 mod 10)]) in H.
  rewrite !app_assoc in H.
  apply app_inj_tail in H as [H Hd2].
  apply app_inj_tail in H as [H Hd1].
  apply app_inv_tail in H. apply toString_inj in H.
  unfold digit in Hd1, Hd2.
  pose proof (Z.div_mod t 60 ltac:(lia)).
  pose proof (Z.div_mod t' 60 ltac:(lia)).
  pose proof (Z.div_mod (t mod 60) 10 ltac:(lia)).
  pose proof (Z.div_mod (t' mod 60) 10 ltac:(lia)).
  lia.
Qed.

(** The examples of the time display. *)
Lemma formatTime_examples :
  formatTime 0 = js "0:00" /\ formatTime 5 = js "0:05" /\
  formatTime 65 = js "1:05" /\ formatTime 3600 = js "60:00".
Proof. repeat split; vm_compute; reflexivity. Qed.

End TimeDisplay.
